(** * Nova recommendation ETL: similarity compute, cache sync and training build

    A shallow embedding of [ml/etl/compute_similarity.py],
    [ml/etl/similarity_sync.py], [ml/etl/training_data_pipeline.py] and
    [ml/run_pipeline.py].  SQL queries run by ClickHouse are embedded as the
    list computations they denote; ClickHouse [Float64] arithmetic is Rocq's
    primitive binary64 [float]; the Redis cache is a [gmap] from key strings
    to sorted sets. *)

From Stdlib Require Import ZArith Floats.
From stdpp Require Import base list gmap strings pretty sorting.

Set Warnings "-inexact-float".

(* ------------------------------------------------------------------ *)
(** ** Shared helpers *)

(** A Python-level exception, as far as the claims distinguish them. *)
Inductive exn :=
| QueryError (msg : string)      (* raised by the ClickHouse client *)
| KeyError (col : string)        (* missing DataFrame column *)
| ValueError (msg : string).     (* conversion failure *)

(** A computation that may raise. *)
Inductive Exc (A : Type) := Ok (a : A) | Raise (e : exn).
Arguments Ok {A} a.
Arguments Raise {A} e.

Definition exc_bind {A B} (m : Exc A) (k : A -> Exc B) : Exc B :=
  match m with Ok a => k a | Raise e => Raise e end.

Notation "'let!' x := m 'in' k" := (exc_bind m (fun x => k))
  (at level 200, x name, m at level 100, k at level 200).

(** ClickHouse converts an unsigned integer to [Float64] rounding to
    nearest-even; [binary_normalize] is exactly that rounding. *)
Definition float_of_nat (n : nat) : float :=
  SF2Prim (SpecFloat.binary_normalize FloatOps.prec FloatOps.emax
             (Z.of_nat n) 0%Z false).

(** [UInt64] multiplication wraps around modulo [2^64]. *)
Definition u64_mul (a b : nat) : nat :=
  Z.to_nat ((Z.of_nat a * Z.of_nat b) mod 2 ^ 64)%Z.

(** Python's [int(x)] on a float: truncation toward zero; [ValueError] on
    NaN, [OverflowError] (also reported as [ValueError] here) on infinities. *)
Definition py_int (x : float) : Exc Z :=
  match Prim2SF x with
  | SpecFloat.S754_zero _ => Ok 0%Z
  | SpecFloat.S754_infinity _ => Raise (ValueError "cannot convert float infinity to integer")
  | SpecFloat.S754_nan => Raise (ValueError "cannot convert float NaN to integer")
  | SpecFloat.S754_finite s m e =>
      let a := if (0 <=? e)%Z then Z.shiftl (Zpos m) e else Z.shiftr (Zpos m) (- e) in
      Ok (if s then (- a)%Z else a)
  end.

(** Stable sort by a float key, descending ([ORDER BY key DESC]); ties keep
    the engine's scan order. *)
Section SortDesc.
Context {A : Type} (key : A -> float).

Fixpoint insert_desc (x : A) (l : list A) : list A :=
  match l with
  | [] => [x]
  | y :: t => if PrimFloat.ltb (key x) (key y) then y :: insert_desc x t else x :: y :: t
  end.

Fixpoint sort_desc (l : list A) : list A :=
  match l with
  | [] => []
  | x :: t => insert_desc x (sort_desc t)
  end.
End SortDesc.

(** [arrayIntersect] and [arrayDistinct] on arrays of ids: both return
    distinct elements. *)
Definition arrayIntersect (a b : list nat) : list nat :=
  remove_dups (filter (fun x => x ∈ b) a).

Definition arrayDistinct (a : list nat) : list nat := remove_dups a.

(* ------------------------------------------------------------------ *)
(** ** [compute_similarity.py]: [SimilarityComputer] *)

(** Python values held in the statistics dicts the jobs return. *)
Inductive pyval := VNat (n : nat) | VFloat (f : float) | VStr (s : string).

Definition Dict := list (string * pyval).

(** [{"error": str(e)}] *)
Definition error_dict (m : string) : Dict := [("error", VStr m)].

Definition exn_msg (e : exn) : string :=
  match e with QueryError m => m | KeyError c => c | ValueError m => m end.

(** Float aggregates as ClickHouse computes them on a non-nullable column:
    [avg] is the sum over the count (NaN on no rows), [max] is 0 on no rows. *)
Definition fsum (l : list float) : float := foldr (fun x acc => (x + acc)%float) 0%float l.
Definition favg (l : list float) : float := (fsum l / float_of_nat (length l))%float.
Definition fmax (l : list float) : float :=
  match l with
  | [] => 0%float
  | x :: t => foldr (fun y acc => if PrimFloat.ltb acc y then y else acc) x t
  end.

(* ------------------------------------------------------------------ *)
(** ** [compute_similarity.py]: [SimilarityComputer] *)

Module Similarity.

Record watch_event := {
  we_user_id : nat;
  we_content_id : nat;
  we_event_date : Z;              (* day number *)
  we_event_time : Z;              (* seconds *)
  we_completion_rate : float;
}.

(** A row of [item_similarity]; [user_similarity] has the same layout
    with users in [item_id]/[similar_item_id] (its constant
    [common_authors_count = 0] column is left out). *)
Record sim_row := {
  item_id : nat;
  similar_item_id : nat;
  similarity_score : float;
  co_interaction_count : nat;
  jaccard_score : float;
  cosine_score : float;
  computed_at : Z;                (* seconds *)
  version : Z;
}.

(** [WHERE event_date >= today() - lookback_days AND completion_rate >= 0.5] *)
Definition qualifies (today lookback_days : Z) (e : watch_event) : Prop :=
  (today - lookback_days <= we_event_date e)%Z
  /\ PrimFloat.leb 0.5%float (we_completion_rate e) = true.

Global Instance qualifies_dec today lookback_days e :
  Decision (qualifies today lookback_days e).
Proof. unfold qualifies. apply _. Defined.

(** The grouping CTE ([item_users] / [user_items]): one row per [key] with
    [groupUniqArray(member)] and [count(DISTINCT member)], kept when the
    count reaches the threshold.  The item query groups by [content_id]
    and collects [user_id]; the user query does the converse. *)
Record group_row := { g_id : nat; g_members : list nat; g_count : nat }.

Section Query.
Variables (key member : watch_event -> nat).

Definition groups (today lookback_days : Z) (min_interactions : nat)
    (events : list watch_event) : list group_row :=
  let q := filter (fun e => qualifies today lookback_days e) events in
  let members_of c := remove_dups (member <$> filter (fun e => key e = c) q) in
  filter (fun r => min_interactions <= g_count r)
    ((fun c => {| g_id := c; g_members := members_of c;
                  g_count := length (members_of c) |})
       <$> remove_dups (key <$> q)).

(** The pairs CTE: [INNER JOIN ... b ON a.id < b.id]. *)
Record pair := {
  ip_a : nat; ip_b : nat; ip_intersection : nat; ip_union : nat;
  ip_a_count : nat; ip_b_count : nat;
}.

Definition pair_of (a b : group_row) : pair :=
  {| ip_a := g_id a; ip_b := g_id b;
     ip_intersection := length (arrayIntersect (g_members a) (g_members b));
     ip_union := length (arrayDistinct (g_members a ++ g_members b));
     ip_a_count := g_count a; ip_b_count := g_count b |}.

Definition pairs (min_common : nat) (gs : list group_row) : list pair :=
  filter (fun p => min_common <= ip_intersection p)
    (a ← gs; b ← filter (fun b => g_id a < g_id b) gs; [pair_of a b]).

(** CTE [scored_pairs]; ClickHouse [/] on integers yields [Float64]. *)
Record scored_pair := {
  sp_a : nat; sp_b : nat; sp_intersection : nat;
  sp_jaccard : float; sp_cosine : float; sp_combined : float;
}.

Definition score_pair (p : pair) : scored_pair :=
  let i := float_of_nat (ip_intersection p) in
  let u := float_of_nat (ip_union p) in
  let s := PrimFloat.sqrt (float_of_nat (u64_mul (ip_a_count p) (ip_b_count p))) in
  {| sp_a := ip_a p; sp_b := ip_b p; sp_intersection := ip_intersection p;
     sp_jaccard := (i / u)%float;
     sp_cosine := (i / s)%float;
     sp_combined := (0.6 * (i / u) + 0.4 * (i / s))%float |}.

Definition scored_pairs (min_jaccard : float) (ps : list pair) : list scored_pair :=
  filter (fun sp => PrimFloat.leb min_jaccard (sp_jaccard sp) = true) (score_pair <$> ps).

(** [row_number() OVER (PARTITION BY part ORDER BY combined_score DESC)]
    followed by [WHERE rn <= top_k]: the first [top_k] rows of each
    partition. *)
Definition rank_limit (part : scored_pair -> nat) (top_k : nat)
    (sps : list scored_pair) : list scored_pair :=
  k ← remove_dups (part <$> sps);
  take top_k (sort_desc sp_combined (filter (fun sp => part sp = k) sps)).

Definition out_row (now : Z) (src dst : nat) (sp : scored_pair) : sim_row :=
  {| item_id := src; similar_item_id := dst;
     similarity_score := sp_combined sp;
     co_interaction_count := sp_intersection sp;
     jaccard_score := sp_jaccard sp; cosine_score := sp_cosine sp;
     computed_at := now; version := now |}.

Record params := {
  lookback_days : Z;
  min_interactions : nat;
  min_common : nat;
  min_jaccard : float;
  top_k : nat;
}.

(** The rows produced by the [INSERT ... SELECT] of [compute_query]
    ([now] in seconds; [today] the day number of [now]): the [UNION ALL]
    of both directions, each ranked in its own window. *)
Definition compute_rows (p : params) (today now : Z) (events : list watch_event)
    : list sim_row :=
  let sps := scored_pairs (min_jaccard p)
               (pairs (min_common p)
                  (groups today (lookback_days p) (min_interactions p) events)) in
  ((fun sp => out_row now (sp_a sp) (sp_b sp) sp) <$> rank_limit sp_a (top_k p) sps)
  ++ ((fun sp => out_row now (sp_b sp) (sp_a sp) sp) <$> rank_limit sp_b (top_k p) sps).
End Query.

  (** [compute_item_similarity]: items grouped with their users. *)
Definition item_rows := compute_rows we_content_id we_user_id.
  (** [compute_user_similarity]: users grouped with their items. *)
Definition user_rows := compute_rows we_user_id we_content_id.

  (** Python defaults of [compute_item_similarity]. *)
Definition item_defaults : params :=
    {| lookback_days := 30; min_interactions := 10; min_common := 5;
       min_jaccard := 0.05%float; top_k := 100 |}.

  (** A row of [user_recent_items]. *)
Record recent_row := {
    r_user_id : nat; r_post_id : nat; r_interaction_type : string;
    r_interaction_time : Z; r_interaction_weight : float; r_version : Z;
  }.

  (** [watch_query] of [update_user_recent_items]. *)
Definition recent_rows (lookback_days today : Z) (events : list watch_event) : list recent_row :=
    (fun e => {| r_user_id := we_user_id e; r_post_id := we_content_id e;
                 r_interaction_type :=
                   if PrimFloat.leb 0.9%float (we_completion_rate e) then "complete" else "view";
                 r_interaction_time := we_event_time e;
                 r_interaction_weight := we_completion_rate e;
                 r_version := we_event_time e |})
    <$> filter (fun e => qualifies today lookback_days e) events.

  (** The statistics queries. *)
Definition sim_stats (id_col : string) (now : Z) (tbl : list sim_row) : Dict :=
    let rs := filter (fun r => now - 3600 <= computed_at r)%Z tbl in
    [("total_pairs", VNat (length rs));
     (id_col, VNat (length (remove_dups (item_id <$> rs))));
     ("avg_similarity", VFloat (favg (similarity_score <$> rs)));
     ("max_similarity", VFloat (fmax (similarity_score <$> rs)))].

Definition recent_stats (lookback_days now : Z) (tbl : list recent_row) : Dict :=
    let rs := filter (fun r => now - lookback_days * 86400 <= r_interaction_time r)%Z tbl in
    [("total_interactions", VNat (length rs));
     ("unique_users", VNat (length (remove_dups (r_user_id <$> rs))));
     ("unique_posts", VNat (length (remove_dups (r_post_id <$> rs))))].

  (** How each ClickHouse call of one job run turns out: [Some msg] when the
      client raises. *)
Record call_outcomes := {
    clear_fails : option string;
    compute_fails : option string;
    stats_fails : option string;
  }.

Definition no_failures : call_outcomes :=
    {| clear_fails := None; compute_fails := None; stats_fails := None |}.

  (** The shape shared by the three jobs: an optional best-effort cleanup
      in its own [try], then the insert and the statistics query inside one
      [try ... except Exception as e: return {"error": str(e)}].  A failing
      insert is taken to leave the table unchanged. *)
Definition run_job {R : Type} (o : call_outcomes) (cleanup : option (list R -> list R))
      (inserted : list R) (stats : list R -> Dict) (tbl : list R) : Exc Dict * list R :=
    let tbl1 := match cleanup, clear_fails o with
                | Some f, None => f tbl
                | _, _ => tbl
                end in
    match compute_fails o with
    | Some m => (Ok (error_dict m), tbl1)
    | None =>
        let tbl2 := tbl1 ++ inserted in
        match stats_fails o with
        | Some m => (Ok (error_dict m), tbl2)
        | None => (Ok (stats tbl2), tbl2)
        end
    end.

  (** [ALTER TABLE ... DELETE WHERE computed_at < now() - INTERVAL 2 DAY] *)
Definition clear_old (now : Z) (tbl : list sim_row) : list sim_row :=
    filter (fun r => now - 2 * 86400 <= computed_at r)%Z tbl.

Definition compute_item_similarity (o : call_outcomes) (p : params) (today now : Z)
      (events : list watch_event) (tbl : list sim_row) : Exc Dict * list sim_row :=
    run_job o (Some (clear_old now)) (item_rows p today now events)
      (sim_stats "unique_items" now) tbl.

Definition compute_user_similarity (o : call_outcomes) (p : params) (today now : Z)
      (events : list watch_event) (tbl : list sim_row) : Exc Dict * list sim_row :=
    run_job o (Some (clear_old now)) (user_rows p today now events)
      (sim_stats "unique_users" now) tbl.

Definition update_user_recent_items (o : call_outcomes) (lookback_days today now : Z)
      (events : list watch_event) (tbl : list recent_row) : Exc Dict * list recent_row :=
    run_job o None (recent_rows lookback_days today events)
      (recent_stats lookback_days now) tbl.

End Similarity.

(* ------------------------------------------------------------------ *)
(** ** [similarity_sync.py]: [SimilaritySync.sync_item_similarity] *)

Module Sync.
Import Similarity.

(** A Redis sorted set with its expiration.  [ttl] is the TTL set by the
    last [EXPIRE] (seconds), [None] when the key has none. *)
Record zentry := { zs : gmap nat float; ttl : option Z }.

Abbreviation cache := (gmap string zentry).

Definition ITEM_SIMILAR_KEY : string := "item:similar:".
Definition ITEM_SIMILAR_TTL : Z := 86400 * 7.

(** [f"{self.ITEM_SIMILAR_KEY}{item_id}"] *)
Definition item_key (id : nat) : string := ITEM_SIMILAR_KEY +:+ pretty (N.of_nat id).

(** The commands queued on the Redis pipeline. *)
Inductive cmd :=
| Del (k : string)
| ZAdd (k : string) (mapping : gmap nat float)
| Expire (k : string) (seconds : Z).

(** Redis semantics of one command. *)
Definition exec_cmd (c : cache) (x : cmd) : cache :=
  match x with
  | Del k => delete k c
  | ZAdd k m =>
      let e := default {| zs := ∅; ttl := None |} (c !! k) in
      <[k := {| zs := m ∪ zs e; ttl := ttl e |}]> c
  | Expire k s =>
      match c !! k with
      | Some e => <[k := {| zs := zs e; ttl := Some s |}]> c
      | None => c
      end
  end.

(** [pipe.execute()]: MULTI/EXEC of the queued commands, in order. *)
Definition execute (c : cache) (cmds : list cmd) : cache := foldl exec_cmd c cmds.

(** A Python dict built by a comprehension: a later key overwrites. *)
Definition dict_of (kvs : list (nat * float)) : gmap nat float :=
  foldl (fun m kv => <[kv.1 := kv.2]> m) ∅ kvs.

(** A result row of the page query: [item_id], [groupArray(top_k)(similar_item_id)],
    [groupArray(top_k)(similarity_score)]. *)
Record page_row := { pr_item_id : nat; pr_similar : list nat; pr_scores : list float }.

(** The inner window of the page query over [item_similarity FINAL]
    (rows in the order the engine scans them): the [rn <= top_k] rows of
    item [x], ordered by score descending. *)
Definition top_rows (top_k : nat) (rows : list sim_row) (x : nat) : list sim_row :=
  take top_k (sort_desc similarity_score (filter (fun r => item_id r = x) rows)).

(** [GROUP BY item_id ORDER BY item_id]: the whole result before
    [LIMIT/OFFSET]. *)
Definition grouped (top_k : nat) (rows : list sim_row) : list page_row :=
  (fun x => let t := top_rows top_k rows x in
            {| pr_item_id := x;
               pr_similar := take top_k (similar_item_id <$> t);
               pr_scores := take top_k (similarity_score <$> t) |})
  <$> merge_sort (≤) (remove_dups (item_id <$> rows)).

(** [LIMIT batch_size OFFSET offset] *)
Definition page_query (top_k batch_size offset : nat) (rows : list sim_row) : list page_row :=
  take batch_size (drop offset (grouped top_k rows)).

(** [SELECT count(DISTINCT item_id) FROM item_similarity FINAL] *)
Definition total_items (rows : list sim_row) : nat := length (remove_dups (item_id <$> rows)).

(** The commands queued for one result row. *)
Definition row_cmds (r : page_row) : list cmd :=
  let key := item_key (pr_item_id r) in
  Del key ::
  (if bool_decide (pr_similar r <> [] /\ pr_scores r <> []) then
     [ZAdd key (dict_of (imap (fun i s => (s, default 0%float (pr_scores r !! i))) (pr_similar r)));
      Expire key ITEM_SIMILAR_TTL]
   else []).

Record sync_stats := { items_processed : nat; pairs_synced : nat; errors : nat }.

Definition count_row (st : sync_stats) (r : page_row) : sync_stats :=
  {| items_processed := S (items_processed st);
     pairs_synced := pairs_synced st
                     + (if bool_decide (pr_similar r <> [] /\ pr_scores r <> [])
                        then length (pr_similar r) else 0);
     errors := errors st |}.

(** One iteration of the [while offset < total_items] loop: query the page,
    queue its commands, execute them. *)
Definition process_page (top_k batch_size offset : nat) (rows : list sim_row)
    (cs : cache * sync_stats) : cache * sync_stats :=
  let page := page_query top_k batch_size offset rows in
  (execute cs.1 (page ≫= row_cmds), foldl count_row cs.2 page).

Fixpoint sync_loop (fuel : nat) (top_k batch_size offset total : nat) (rows : list sim_row)
    (cs : cache * sync_stats) : cache * sync_stats :=
  match fuel with
  | 0 => cs
  | S f =>
      if bool_decide (offset < total) then
        sync_loop f top_k batch_size (offset + batch_size) total rows
          (process_page top_k batch_size offset rows cs)
      else cs
  end.

(** [sync_item_similarity(batch_size, top_k)] run against the table as
    scanned ([rows]) and the cache [c].  With [batch_size = 0] and some
    item the offset never moves and the loop does not end: [None].  With
    [batch_size >= 1] the loop runs at most [total] times. *)
Definition sync_item_similarity (batch_size top_k : nat) (rows : list sim_row) (c : cache)
    : option (cache * sync_stats) :=
  let total := total_items rows in
  if bool_decide (batch_size = 0 /\ 0 < total) then None
  else Some (sync_loop (S total) top_k batch_size 0 total rows
               (c, {| items_processed := 0; pairs_synced := 0; errors := 0 |})).

End Sync.

(* ------------------------------------------------------------------ *)
(** ** [training_data_pipeline.py]: [TrainingDataPipeline] *)

Module Training.

(** A row of [training_interactions], with the columns the pipeline
    reads; ids and times as numbers. *)
Record sample := {
  t_user_id : nat;
  t_post_id : nat;
  t_label : nat;
  t_label_type : string;
  t_impression_time : Z;
  t_completion_rate : float;
  t_recall_source : string;
  t_position_in_feed : Z;
  t_hour_of_day : Z;
  t_day_of_week : Z;
  t_event_date : Z;
}.

(** A DataFrame: its column names and its rows.  A row carries the sample
    columns and the integer columns added by [compute_derived_features];
    the values of the joined feature columns are not tracked (no claim
    reads them), their names are. *)
Record frow := { base : sample; extra : list (string * Z) }.
Record frame := { cols : list string; rows : list frow }.

Definition sample_cols : list string :=
  ["user_id"; "post_id"; "author_id"; "label"; "label_type"; "impression_time";
   "click_time"; "watch_duration_ms"; "content_duration_ms"; "completion_rate";
   "recall_source"; "position_in_feed"; "session_id"; "device_type";
   "hour_of_day"; "day_of_week"; "event_date"].

(** Columns of the [get_features_batch] query. *)
Definition feature_cols : list string :=
  ["user_id"; "post_id"; "user_follower_count"; "user_following_count";
   "user_post_count"; "user_avg_session_length"; "user_active_days_30d";
   "post_age_hours"; "post_like_count"; "post_comment_count"; "post_view_count";
   "post_completion_rate"; "post_engagement_rate"; "content_duration_ms";
   "has_music"; "is_original"; "author_follower_count"; "author_avg_engagement";
   "author_post_frequency"; "user_author_affinity"; "user_author_interaction_count";
   "recall_source"; "recall_weight"; "extra_features"].

Definition frame_of (l : list sample) : frame :=
  {| cols := sample_cols; rows := (fun s => {| base := s; extra := [] |}) <$> l |}.

(** The queries sent to ClickHouse, with their [LIMIT] parameter. *)
Inductive query := QPositive | QCount | QNegative (limit : Z) | QFeatures.

Definition in_range (start_date end_date : Z) (s : sample) : Prop :=
  (start_date <= t_event_date s <= end_date)%Z.

(** [extract_positive_samples]: [label = 1] rows of the range (the query
    selects the constant [1 AS label]). *)
Definition positives (tbl : list sample) (start_date end_date : Z) : list sample :=
  (fun s => {| t_user_id := t_user_id s; t_post_id := t_post_id s; t_label := 1;
               t_label_type := t_label_type s; t_impression_time := t_impression_time s;
               t_completion_rate := t_completion_rate s; t_recall_source := t_recall_source s;
               t_position_in_feed := t_position_in_feed s; t_hour_of_day := t_hour_of_day s;
               t_day_of_week := t_day_of_week s; t_event_date := t_event_date s |})
  <$> filter (fun s => in_range start_date end_date s /\ t_label s = 1) tbl.

(** The eligible negatives: [label = 0] rows of the range. *)
Definition negatives_available (tbl : list sample) (start_date end_date : Z) : list sample :=
  filter (fun s => in_range start_date end_date s /\ t_label s = 0) tbl.

(** [ORDER BY rand()]: the rows sorted by the random keys the engine draws
    for them ([keys], one per row in scan order; missing keys read 0). *)
Definition key_le (a b : sample * Z) : Prop := (a.2 <= b.2)%Z.

Global Instance key_le_dec : RelDecision key_le := fun a b => decide (a.2 <= b.2)%Z.

Definition order_by_rand (keys : list Z) (l : list sample) : list sample :=
  fst <$> merge_sort key_le
            (imap (fun i s => (s, default 0%Z (keys !! i))) l).

(** [SELECT ... WHERE ... AND label = 0 ORDER BY rand() LIMIT %(limit)s].
    A negative [LIMIT] (only reachable with [negative_ratio < 0]) is taken
    to be refused by the server. *)
Definition negative_query (tbl : list sample) (start_date end_date limit : Z)
    (keys : list Z) : Exc (list sample) :=
  if bool_decide (limit < 0)%Z then Raise (QueryError "negative LIMIT")
  else Ok (take (Z.to_nat limit) (order_by_rand keys (negatives_available tbl start_date end_date))).

(** [extract_negative_samples]: count the positives, then
    [negative_limit = int(positive_count * negative_ratio)]; returns the
    [LIMIT] sent along with the rows. *)
Definition extract_negative_samples (tbl : list sample) (start_date end_date : Z)
    (negative_ratio : float) (keys : list Z) : list query * Exc (list sample) :=
  let positive_count := length (filter (fun s => in_range start_date end_date s /\ t_label s = 1) tbl) in
  match py_int (float_of_nat positive_count * negative_ratio)%float with
  | Raise e => ([QCount], Raise e)
  | Ok negative_limit => ([QCount; QNegative negative_limit],
                          negative_query tbl start_date end_date negative_limit keys)
  end.

(** [DataFrame.merge(features_df, on=['user_id','post_id'], how='left')]:
    clashing non-key columns get the suffixes [_x] and [_y].  The feature
    query returns one row per (user, post) ([LIMIT 1 BY]), so each left row
    stays exactly once, in order. *)
Definition merge_cols (l r : list string) : list string :=
  let key c := bool_decide (c = "user_id" \/ c = "post_id") in
  let clash c := negb (key c) && bool_decide (c ∈ l) && bool_decide (c ∈ r) in
  ((fun c => if negb (key c) && bool_decide (c ∈ r) then c +:+ "_x" else c) <$> l)
  ++ ((fun c => if clash c then c +:+ "_y" else c) <$> filter (fun c => ~ (c = "user_id" \/ c = "post_id")) r).

(** [join_features]: [features] lists the (user, post) pairs that have a
    snapshot in [training_features]; [features_fail] when the feature query
    raises (caught by [get_features_batch], which then returns an empty
    frame).  The query matches every pair of the cross product of the user
    and post id lists ([arrayJoin] twice). *)
Definition join_features (features : list (nat * nat)) (features_fail : bool) (df : frame)
    : frame * list string :=
  if bool_decide (rows df = []) then (df, [])
  else
    let us := (fun r => t_user_id (base r)) <$> rows df in
    let ps := (fun r => t_post_id (base r)) <$> rows df in
    let found := if features_fail then []
                 else remove_dups (filter (fun k => k.1 ∈ us /\ k.2 ∈ ps) features) in
    if bool_decide (found = []) then (df, ["No features found, using default values"])
    else ({| cols := merge_cols (cols df) feature_cols; rows := rows df |}, []).

(** [pd.cut(x, bins, labels=[0..4])]: right-closed bins, lowest edge
    excluded; [None] is NaN. *)
Fixpoint cut_from (i : nat) (edges : list float) (x : float) : option nat :=
  match edges with
  | lo :: ((hi :: _) as rest) =>
      if PrimFloat.ltb lo x && PrimFloat.leb x hi then Some i else cut_from (S i) rest x
  | _ => None
  end.

Definition cut (edges : list float) (x : float) : option nat := cut_from 0 edges x.

Definition float_of_Z (z : Z) : float :=
  SF2Prim (SpecFloat.binary_normalize FloatOps.prec FloatOps.emax z 0%Z false).

Definition position_bins : list float := [0; 3; 10; 30; 100; PrimFloat.infinity]%float.
Definition completion_bins : list float := [0; 0.25; 0.5; 0.75; 0.9; 1.0]%float.

(** [pd.cut(...).astype(int)] on a whole column: [ValueError] when some
    value fell in no bin (NaN category). *)
Definition bucket_column (edges : list float) (xs : list float) : Exc (list Z) :=
  match mapM (cut edges) xs with
  | Some bs => Ok (Z.of_nat <$> bs)
  | None => Raise (ValueError "Cannot convert float NaN to integer")
  end.

Definition col (df : frame) (c : string) : Exc unit :=
  if bool_decide (c ∈ cols df) then Ok tt else Raise (KeyError c).

Definition recall_source_code (s : string) : Z :=
  if String.eqb s "graph" then 1 else if String.eqb s "trending" then 2
  else if String.eqb s "personalized" then 3 else if String.eqb s "item_cf" then 4
  else if String.eqb s "user_cf" then 5 else 0.

Definition zb (b : bool) : Z := if b then 1 else 0.

(** [compute_derived_features], column by column in the order of the code. *)
Definition compute_derived_features (df : frame) : Exc frame :=
  if bool_decide (rows df = []) then Ok df
  else
    let bs := base <$> rows df in
    let! _ := col df "day_of_week" in
    let! _ := col df "hour_of_day" in
    let! _ := col df "position_in_feed" in
    let! pos := bucket_column position_bins ((fun s => float_of_Z (t_position_in_feed s)) <$> bs) in
    let! _ := col df "completion_rate" in
    let! comp := bucket_column completion_bins (t_completion_rate <$> bs) in
    let! _ := col df "recall_source" in
    let add (r : frow) (pb cb : Z) :=
      let s := base r in
      let h := t_hour_of_day s in
      {| base := s;
         extra := extra r ++
           [("is_weekend", zb (bool_decide (t_day_of_week s = 6 \/ t_day_of_week s = 7)%Z));
            ("is_morning", zb (bool_decide (6 <= h <= 11)%Z));
            ("is_evening", zb (bool_decide (18 <= h <= 23)%Z));
            ("is_night", zb (bool_decide (0 <= h <= 5)%Z));
            ("position_bucket", pb); ("completion_bucket", cb);
            ("recall_source_encoded", recall_source_code (t_recall_source s))] |} in
    Ok {| cols := cols df ++ ["is_weekend"; "is_morning"; "is_evening"; "is_night";
                             "position_bucket"; "completion_bucket"; "recall_source_encoded"];
          rows := zip_with (fun r pc => add r pc.1 pc.2) (rows df) (zip pos comp) |}.

(** [df.sample(frac=1, random_state=42).reset_index(drop=True)]: the rows
    taken in the order of [perm n], the permutation of [0..n-1] that
    NumPy's generator seeded with 42 draws for [n] rows. *)
Definition shuffle (perm : nat -> list nat) (df : frame) : frame :=
  {| cols := cols df;
     rows := omap (fun i => rows df !! i) (perm (length (rows df))) |}.

(** The environment of one [build_training_dataset] call. *)
Record env := {
  tbl : list sample;                 (* training_interactions *)
  features : list (nat * nat);       (* pairs with a feature snapshot *)
  features_fail : bool;
  rand_keys : list Z;                (* the keys rand() draws for this call *)
}.

(** [build_training_dataset(start_date, end_date, negative_ratio)]: the
    result (a frame, or the exception it raises), the queries sent, and
    the warnings logged. *)
Definition build_training_dataset (perm : nat -> list nat) (E : env)
    (start_date end_date : Z) (negative_ratio : float)
    : Exc frame * list query * list string :=
  let pos := positives (tbl E) start_date end_date in
  let (qs, neg) := extract_negative_samples (tbl E) start_date end_date negative_ratio (rand_keys E) in
  let qs := QPositive :: qs in
  match neg with
  | Raise e => (Raise e, qs, [])
  | Ok neg =>
      let all_samples := frame_of (pos ++ neg) in
      if bool_decide (rows all_samples = []) then
        (Ok all_samples, qs, ["No samples found for the date range"])
      else
        let (joined, ws) := join_features (features E) (features_fail E) all_samples in
        (match compute_derived_features joined with
         | Ok df => Ok (shuffle perm df)
         | Raise e => Raise e
         end, qs ++ [QFeatures], ws)
  end.


(** The columns [compute_derived_features] appends, in order. *)
Definition derived_cols : list string :=
  ["is_weekend"; "is_morning"; "is_evening"; "is_night";
   "position_bucket"; "completion_bucket"; "recall_source_encoded"].

End Training.

(* ------------------------------------------------------------------ *)
(** ** [run_pipeline.py]: the orchestrator *)

Module Pipeline.
Import Similarity.

(** [run_similarity_computation]: the three jobs, one after the other, on
    the two similarity tables and the recent-items table; their results
    collected whatever each returned. *)
Record ch_state := {
  item_tbl : list sim_row; user_tbl : list sim_row; recent_tbl : list recent_row;
}.

Definition run_similarity_computation (o_item o_user o_recent : call_outcomes)
    (lookback : Z) (today now : Z) (events : list watch_event) (db : ch_state)
    : Exc (list (string * Dict)) * ch_state :=
  let p_item := {| lookback_days := lookback; min_interactions := 10; min_common := 5;
                   min_jaccard := 0.05%float; top_k := 100 |} in
  let p_user := {| lookback_days := lookback; min_interactions := 10; min_common := 5;
                   min_jaccard := 0.05%float; top_k := 50 |} in
  let (r1, t1) := compute_item_similarity o_item p_item today now events (item_tbl db) in
  match r1 with
  | Raise e => (Raise e, {| item_tbl := t1; user_tbl := user_tbl db; recent_tbl := recent_tbl db |})
  | Ok d1 =>
      let (r2, t2) := compute_user_similarity o_user p_user today now events (user_tbl db) in
      match r2 with
      | Raise e => (Raise e, {| item_tbl := t1; user_tbl := t2; recent_tbl := recent_tbl db |})
      | Ok d2 =>
          let (r3, t3) := update_user_recent_items o_recent 7 today now events (recent_tbl db) in
          match r3 with
          | Raise e => (Raise e, {| item_tbl := t1; user_tbl := t2; recent_tbl := t3 |})
          | Ok d3 => (Ok [("item", d1); ("user", d2); ("recent", d3)],
                      {| item_tbl := t1; user_tbl := t2; recent_tbl := t3 |})
          end
      end
  end.

(** The four stages of [main], in the order the code runs them. *)
Inductive stage := SSimilarity | SSync | SExtract | STrain.

Record flags := { f_all : bool; f_similarity : bool; f_sync : bool; f_extract : bool; f_train : bool }.

(** [if not any([...]): args.all = True], then [if args.all or args.X]. *)
Definition selected (fl : flags) : list stage :=
  let all := f_all fl || negb (f_similarity fl || f_sync fl || f_extract fl || f_train fl) in
  (if all || f_similarity fl then [SSimilarity] else [])
  ++ (if all || f_sync fl then [SSync] else [])
  ++ (if all || f_extract fl then [SExtract] else [])
  ++ (if all || f_train fl then [STrain] else []).

Inductive log_entry :=
| LogInfo (msg : string)
| LogError (msg : string) (exc_info : bool).

Section Main.
(** The world the stages act on (databases, cache, files) and what each
    stage function does to it: a result, or an exception that escapes
    the stage. *)
Context {world : Type} (run_stage : stage -> world -> Exc (string * world)).

(** The body of the [try] block: the selected stages in order, each run
    once; the first exception leaves the block. *)
Fixpoint run_stages (ss : list stage) (w : world) (done_ : list stage)
    : (list stage * Exc world) :=
  match ss with
  | [] => (done_, Ok w)
  | s :: rest =>
      match run_stage s w with
      | Raise e => (done_ ++ [s], Raise e)
      | Ok (_, w') => run_stages rest w' (done_ ++ [s])
      end
  end.

(** [sys.exit(main())]: the exit status, the stages that were entered, the
    log, and the final world. *)
Definition main (fl : flags) (w : world) : Z * list stage * list log_entry * option world :=
  match run_stages (selected fl) w [] with
  | (ran, Ok w') => (0%Z, ran, [LogInfo "Pipeline complete!"], Some w')
  | (ran, Raise e) => (1%Z, ran, [LogError ("Pipeline failed: " +:+ exn_msg e) true], None)
  end.
End Main.

(** The stages in the order [main] tests their flags. *)
Definition all_stages : list stage := [SSimilarity; SSync; SExtract; STrain].

End Pipeline.

(* ------------------------------------------------------------------ *)
(** ** Sets and concrete inputs the statements below refer to *)

Module Scenarios.
Import Similarity.

(** The qualifying members of [c] (users of an item, items of a user),
    as a set. *)
Definition members_set (key member : watch_event -> nat) (today lookback_days : Z)
    (events : list watch_event) (c : nat) : gset nat :=
  list_to_set (member <$> filter (fun e => qualifies today lookback_days e /\ key e = c) events).

(** [U_A]: the users whose qualifying watches of item [c] fall in the window. *)
Definition users_of_item := members_set we_content_id we_user_id.

(** Watch events of the spec's scenario: item 1 watched by users 1..10, item 2 by users 5..14. *)
Definition scenario_events : list watch_event :=
  ((fun u => {| we_user_id := u; we_content_id := 1; we_event_date := 100;
                we_event_time := 8640000; we_completion_rate := 1.0%float |}) <$> seq 1 10)
  ++ ((fun u => {| we_user_id := u; we_content_id := 2; we_event_date := 100;
                   we_event_time := 8640000; we_completion_rate := 1.0%float |}) <$> seq 5 10).

Definition scenario_params : params :=
  {| lookback_days := 30; min_interactions := 10; min_common := 5;
     min_jaccard := 0.05%float; top_k := 100 |}.

Definition scenario_row (src dst : nat) : sim_row :=
  {| item_id := src; similar_item_id := dst;
     similarity_score := (0.6 * (6 / 14) + 0.4 * 0.6)%float;
     co_interaction_count := 6;
     jaccard_score := (6 / 14)%float; cosine_score := 0.6%float;
     computed_at := 8640000; version := 8640000 |}.

(** A row computed one day before [now = 8640000] for the pair (1, 3). *)
Definition prior_row : sim_row :=
  {| item_id := 1; similar_item_id := 3; similarity_score := 0.3%float;
     co_interaction_count := 5; jaccard_score := 0.3%float; cosine_score := 0.3%float;
     computed_at := 8640000 - 86400; version := 8640000 - 86400 |}.

Definition top1_params : params :=
  {| lookback_days := 30; min_interactions := 10; min_common := 5;
     min_jaccard := 0.05%float; top_k := 1 |}.

(** Three items: 1 (users 1..10), 2 (users 5..14), 3 (users 9..18); item 2
    pairs with both others, item 1 and item 3 share only two users. *)
Definition chain_events : list watch_event :=
  scenario_events
  ++ ((fun u => {| we_user_id := u; we_content_id := 3; we_event_date := 100;
                   we_event_time := 8640000; we_completion_rate := 1.0%float |}) <$> seq 9 10).

End Scenarios.

(* ------------------------------------------------------------------ *)
(** ** Training tables the statements below refer to *)

Module TrainingScenarios.
Import Training.

(** A row of [training_interactions] on day 10. *)
Definition mk_sample (u p l : nat) (pos : Z) (cr : float) : sample :=
  {| t_user_id := u; t_post_id := p; t_label := l;
     t_label_type := if Nat.eqb l 1 then "complete" else "impression_no_click";
     t_impression_time := 864000; t_completion_rate := cr; t_recall_source := "graph";
     t_position_in_feed := pos; t_hour_of_day := 9; t_day_of_week := 3;
     t_event_date := 10 |}.

(** The identity shuffle, for frames whose order does not matter. *)
Definition id_perm (n : nat) : list nat := seq 0 n.

Definition env_of (rows : list sample) (keys : list Z) : env :=
  {| tbl := rows; features := []; features_fail := false; rand_keys := keys |}.


(** One positive and three negatives. *)
Definition one_positive_env : env :=
  env_of [mk_sample 1 10 1 2 0.8; mk_sample 2 11 0 3 0.2; mk_sample 3 12 0 4 0.1;
          mk_sample 4 13 0 5 0.3] [5; 7; 9]%Z.

(** One positive and two negatives, seen under two draws of [rand()]. *)
Definition draw_env (keys : list Z) : env :=
  env_of [mk_sample 1 10 1 2 0.8; mk_sample 2 11 0 3 0.2; mk_sample 3 12 0 4 0.1] keys.


End TrainingScenarios.

(* ------------------------------------------------------------------ *)
(** ** Cache entries and tables for the sync statements *)

Module SyncScenarios.
Import Similarity Sync.

(** What the commands of one result row leave under its key: a fresh
    sorted set with the TTL, or no key when the row has no neighbour. *)
Definition row_entry (r : page_row) : option zentry :=
  if bool_decide (pr_similar r <> [] /\ pr_scores r <> []) then
    Some {| zs := dict_of (imap (fun i s => (s, default 0%float (pr_scores r !! i))) (pr_similar r));
            ttl := Some ITEM_SIMILAR_TTL |}
  else None.

(** The fold of the per-row effects over the result rows. *)
Definition apply_rows (c : cache) (l : list page_row) : cache :=
  foldl (fun c r => execute c (row_cmds r)) c l.

Definition sim (src dst : nat) (score : float) : sim_row :=
  {| item_id := src; similar_item_id := dst; similarity_score := score;
     co_interaction_count := 5; jaccard_score := score; cosine_score := score;
     computed_at := 8640000; version := 8640000 |}.

(** Item 1 with two neighbours tied at 0.5. *)
Definition tie_rows : list sim_row := [sim 1 2 0.5; sim 1 3 0.5].

(** Item 1 with neighbours 11..14 scored 0.9, 0.7, 0.5, 0.3, stored out of
    order; item 2 with one neighbour. *)
Definition four_rows : list sim_row :=
  [sim 1 13 0.5; sim 2 1 0.4; sim 1 11 0.9; sim 1 14 0.3; sim 1 12 0.7].

(** A cache holding stale neighbours for item 1. *)
Definition stale_cache : cache :=
  {[ item_key 1 := {| zs := {[ 99 := 1.0%float; 11 := 0.1%float ]}; ttl := None |} ]}.

End SyncScenarios.

(* ------------------------------------------------------------------ *)
(** ** [similarity_sync.py]: the three sync jobs and [get_sync_stats] *)

Module SyncJobs.
Import Similarity Sync.

Definition USER_SIMILAR_KEY : string := "user:similar:".
Definition USER_RECENT_ITEMS_KEY : string := "user:recent_items:".
Definition USER_SIMILAR_TTL : Z := 86400 * 7.
Definition USER_RECENT_TTL : Z := 86400 * 30.

(** [f"{self.USER_SIMILAR_KEY}{user_id}"], [f"{self.USER_RECENT_ITEMS_KEY}{user_id}"] *)
Definition user_key (id : nat) : string := USER_SIMILAR_KEY +:+ pretty (N.of_nat id).
Definition recent_key (id : nat) : string := USER_RECENT_ITEMS_KEY +:+ pretty (N.of_nat id).

(** How the [try] block of one batch (the batch at some offset) turns out:
    it runs through, the page query raises (nothing is queued), or
    [pipe.execute()] raises after every row of the page has been queued
    and counted (the MULTI/EXEC transaction is then not applied). *)
Inductive batch_outcome := BatchOk | QueryFails | ExecFails.

(** [stats["errors"] += 1] *)
Definition errors_plus1 (st : sync_stats) : sync_stats :=
  {| items_processed := items_processed st; pairs_synced := pairs_synced st;
     errors := S (errors st) |}.

Definition zero_stats : sync_stats :=
  {| items_processed := 0; pairs_synced := 0; errors := 0 |}.

(** The loop shared by [sync_item_similarity], [sync_user_similarity] and
    [sync_user_recent_items]: they differ in the key prefix, the TTL, the
    page query and the names of the statistics ([items_processed] /
    [users_processed], [pairs_synced] / [items_synced], [errors]).  [all]
    is the whole ordered result of the page query before [LIMIT/OFFSET];
    [total] is the result of the count query (taken to succeed). *)
Section Job.
Context (key : nat -> string) (key_ttl : Z).

Definition job_row_cmds (r : page_row) : list cmd :=
  let k := key (pr_item_id r) in
  Del k ::
  (if bool_decide (pr_similar r <> [] /\ pr_scores r <> []) then
     [ZAdd k (dict_of (imap (fun i s => (s, default 0%float (pr_scores r !! i))) (pr_similar r)));
      Expire k key_ttl]
   else []).

Definition job_page (o : nat -> batch_outcome) (all : list page_row) (batch_size offset : nat)
    (cs : cache * sync_stats) : cache * sync_stats :=
  let page := take batch_size (drop offset all) in
  match o offset with
  | BatchOk => (execute cs.1 (page ≫= job_row_cmds), foldl count_row cs.2 page)
  | QueryFails => (cs.1, errors_plus1 cs.2)
  | ExecFails => (cs.1, errors_plus1 (foldl count_row cs.2 page))
  end.

Fixpoint job_loop (fuel : nat) (o : nat -> batch_outcome) (all : list page_row)
    (batch_size offset total : nat) (cs : cache * sync_stats) : cache * sync_stats :=
  match fuel with
  | 0 => cs
  | S f =>
      if bool_decide (offset < total) then
        job_loop f o all batch_size (offset + batch_size) total (job_page o all batch_size offset cs)
      else cs
  end.

(** What the commands of one result row leave under its key, and the
    commands of several rows executed in order. *)
Definition job_entry (r : page_row) : option zentry :=
  if bool_decide (pr_similar r <> [] /\ pr_scores r <> []) then
    Some {| zs := dict_of (imap (fun i s => (s, default 0%float (pr_scores r !! i))) (pr_similar r));
            ttl := Some key_ttl |}
  else None.

Definition job_apply (c : cache) (l : list page_row) : cache :=
  foldl (fun c r => execute c (job_row_cmds r)) c l.

(** The count [pairs_synced] (or [items_synced]) takes for one row. *)
Definition row_pairs (r : page_row) : nat :=
  if bool_decide (pr_similar r <> [] /\ pr_scores r <> []) then length (pr_similar r) else 0.

(** [None] when [batch_size = 0] and [total > 0]: the offset never moves. *)
Definition run_sync (o : nat -> batch_outcome) (batch_size total : nat) (all : list page_row)
    (c : cache) : option (cache * sync_stats) :=
  if bool_decide (batch_size = 0 /\ 0 < total) then None
  else Some (job_loop (S total) o all batch_size 0 total (c, zero_stats)).
End Job.

(** [sync_item_similarity] with the outcome of each batch. *)
Definition sync_item_similarity_o (o : nat -> batch_outcome) (batch_size top_k : nat)
    (rows : list sim_row) (c : cache) : option (cache * sync_stats) :=
  run_sync item_key ITEM_SIMILAR_TTL o batch_size (total_items rows) (grouped top_k rows) c.

(** [sync_user_similarity]: [user_similarity] has the layout of
    [item_similarity] with users in [item_id]/[similar_item_id]; its count
    and page queries are those of the item sync. *)
Definition sync_user_similarity (o : nat -> batch_outcome) (batch_size top_k : nat)
    (rows : list sim_row) (c : cache) : option (cache * sync_stats) :=
  run_sync user_key USER_SIMILAR_TTL o batch_size (total_items rows) (grouped top_k rows) c.

(** Stable sort by an integer key, descending ([ORDER BY interaction_time DESC]). *)
Section SortDescZ.
Context {A : Type} (key : A -> Z).

Fixpoint insert_desc_Z (x : A) (l : list A) : list A :=
  match l with
  | [] => [x]
  | y :: t => if Z.ltb (key x) (key y) then y :: insert_desc_Z x t else x :: y :: t
  end.

Fixpoint sort_desc_Z (l : list A) : list A :=
  match l with
  | [] => []
  | x :: t => insert_desc_Z x (sort_desc_Z t)
  end.
End SortDescZ.

(** [WHERE interaction_time >= now() - INTERVAL lookback_days DAY] *)
Definition in_window (now lookback_days : Z) (r : recent_row) : Prop :=
  (now - lookback_days * 86400 <= r_interaction_time r)%Z.

Global Instance in_window_dec now lookback_days r : Decision (in_window now lookback_days r).
Proof. unfold in_window. apply _. Defined.

Definition window (now lookback_days : Z) (rows : list recent_row) : list recent_row :=
  filter (in_window now lookback_days) rows.

(** The [rn <= max_items] rows of user [u] in the window, latest first. *)
Definition recent_top (max_items : nat) (w : list recent_row) (u : nat) : list recent_row :=
  take max_items (sort_desc_Z r_interaction_time (filter (fun r => r_user_id r = u) w)).

(** The page query of [sync_user_recent_items] before [LIMIT/OFFSET]:
    [groupArray(max_items)(post_id)] and
    [groupArray(max_items)(toUnixTimestamp(interaction_time))] per user,
    [ORDER BY user_id].  Redis parses each integer score into the nearest
    double, which [float_of_Z] computes. *)
Definition grouped_recent (max_items : nat) (w : list recent_row) : list page_row :=
  (fun u => let t := recent_top max_items w u in
            {| pr_item_id := u;
               pr_similar := take max_items (r_post_id <$> t);
               pr_scores := take max_items ((fun r => Training.float_of_Z (r_interaction_time r)) <$> t) |})
  <$> merge_sort (≤) (remove_dups (r_user_id <$> w)).

(** [sync_user_recent_items(batch_size, lookback_days, max_items_per_user)]
    run at time [now] against [user_recent_items FINAL] as scanned. *)
Definition sync_user_recent_items (o : nat -> batch_outcome) (batch_size : nat)
    (lookback_days : Z) (max_items_per_user : nat) (now : Z) (rows : list recent_row)
    (c : cache) : option (cache * sync_stats) :=
  let w := window now lookback_days rows in
  run_sync recent_key USER_RECENT_TTL o batch_size (length (remove_dups (r_user_id <$> w)))
    (grouped_recent max_items_per_user w) c.

(** [get_sync_stats]: [KEYS prefix*] for each prefix.  The order in which
    [KEYS] lists the keys is unspecified; the map's order stands for it. *)
Definition keys_with (p : string) (c : cache) : list string :=
  filter (fun k => String.prefix p k = true) (map_to_list c).*1.

Definition get_sync_stats (c : cache) : list (string * nat) :=
  let item_keys := keys_with ITEM_SIMILAR_KEY c in
  let user_keys := keys_with USER_SIMILAR_KEY c in
  let recent_keys := keys_with USER_RECENT_ITEMS_KEY c in
  [("item_similarity_keys", length item_keys);
   ("user_similarity_keys", length user_keys);
   ("user_recent_items_keys", length recent_keys)]
  ++ (match item_keys with
      | k :: _ => [("sample_item_similar_count", default 0 (size ∘ zs <$> c !! k))]
      | [] => []
      end)
  ++ (match user_keys with
      | k :: _ => [("sample_user_similar_count", default 0 (size ∘ zs <$> c !! k))]
      | [] => []
      end).

(** [run_similarity_sync] of [run_pipeline.py]: the item sync with
    [top_k = 50], the user sync with [top_k = 30] and the recent-items sync
    with [lookback_days = 7], each with its default [batch_size] (1000, 500,
    1000) and [max_items_per_user = 50], on one Redis. *)
Definition run_similarity_sync (oi ou orc : nat -> batch_outcome) (now : Z)
    (item_tbl user_tbl : list sim_row) (recent_tbl : list recent_row) (c : cache)
    : option (cache * list (string * sync_stats)) :=
  match sync_item_similarity_o oi 1000 50 item_tbl c with
  | None => None
  | Some (c1, s1) =>
      match sync_user_similarity ou 500 30 user_tbl c1 with
      | None => None
      | Some (c2, s2) =>
          match sync_user_recent_items orc 1000 7 50 now recent_tbl c2 with
          | None => None
          | Some (c3, s3) => Some (c3, [("item", s1); ("user", s2); ("recent", s3)])
          end
      end
  end.

(** The result row of one group: the group's rows [l] in window order,
    of which the first [k] ([rn <= k]) are kept, their [f] column and
    their [g] column each collected by [groupArray(k)]. *)
Section Groups.
Context {A : Type} (f : A -> nat) (g : A -> float).

Definition kept_row (x k : nat) (l : list A) : page_row :=
  {| pr_item_id := x; pr_similar := take k (f <$> take k l); pr_scores := take k (g <$> take k l) |}.

(** [GROUP BY id ORDER BY id] over the ids [ids], [L x] being the rows of
    group [x] in window order. *)
Definition kept_groups (k : nat) (L : nat -> list A) (ids : list nat) : list page_row :=
  (fun x => kept_row x k (L x)) <$> merge_sort (≤) (remove_dups ids).
End Groups.

End SyncJobs.

(* ------------------------------------------------------------------ *)
(** ** Inputs of the sync jobs used below *)

Module SyncJobScenarios.
Import Similarity Sync SyncScenarios SyncJobs.

(** [stale_cache] plus the key of item 7, which no row mentions. *)
Definition stale_cache7 : cache :=
  <[item_key 7 := {| zs := {[5 := 0.2%float]}; ttl := None |}]> stale_cache.

Definition rr (u p : nat) (t : Z) : recent_row :=
  {| r_user_id := u; r_post_id := p; r_interaction_type := "view";
     r_interaction_time := t; r_interaction_weight := 0.5%float; r_version := t |}.

(** User 1 viewed post 10 twice and post 11 once inside the window; user
    2 viewed post 12 before it. *)
Definition recent_sample : list recent_row :=
  [rr 1 10 1000; rr 1 11 2000; rr 1 10 3000; rr 2 12 0].

(** [now()] seven days and 500 seconds after the epoch. *)
Definition sample_now : Z := 86400 * 7 + 500.

End SyncJobScenarios.

(* ================================================================== *)
(** * Properties *)

(* ------------------------------------------------------------------ *)
(** ** Generic list and set facts *)

Lemma insert_desc_perm {A} (key : A -> float) (x : A) (l : list A) :
  insert_desc key x l ≡ₚ x :: l.
Proof.
  induction l as [|y t IH]; simpl; [done|].
  destruct (PrimFloat.ltb (key x) (key y)); [|done].
  rewrite IH. apply perm_swap.
Qed.

Lemma sort_desc_perm {A} (key : A -> float) (l : list A) : sort_desc key l ≡ₚ l.
Proof.
  induction l as [|x t IH]; simpl; [done|].
  rewrite insert_desc_perm, IH. done.
Qed.

Lemma length_remove_dups_size (l : list nat) :
  length (remove_dups l) = size (list_to_set l : gset nat).
Proof.
  rewrite <- (size_list_to_set (C:=gset nat) (remove_dups l)) by apply NoDup_remove_dups.
  f_equal. apply leibniz_equiv. intros x.
  rewrite !elem_of_list_to_set, elem_of_remove_dups. done.
Qed.

Lemma length_arrayIntersect (a b : list nat) :
  length (arrayIntersect a b) = size (list_to_set a ∩ list_to_set b : gset nat).
Proof.
  unfold arrayIntersect. rewrite length_remove_dups_size.
  f_equal. apply leibniz_equiv. intros x.
  rewrite elem_of_intersection, !elem_of_list_to_set, list_elem_of_filter. tauto.
Qed.

Lemma length_arrayDistinct_app (a b : list nat) :
  length (arrayDistinct (a ++ b)) = size (list_to_set a ∪ list_to_set b : gset nat).
Proof.
  unfold arrayDistinct. rewrite length_remove_dups_size.
  f_equal. apply leibniz_equiv. intros x.
  rewrite elem_of_union, !elem_of_list_to_set, elem_of_app. done.
Qed.

(* ------------------------------------------------------------------ *)
(** ** The similarity query *)

Module SimilarityFacts.
Import Similarity Scenarios.


Section Generic.
Variables (key member : watch_event -> nat).

Lemma groups_elem today lb m events g :
  g ∈ groups key member today lb m events ->
  list_to_set (g_members g) = members_set key member today lb events (g_id g) /\
  g_count g = size (members_set key member today lb events (g_id g)) /\
  m <= g_count g.
Proof.
  unfold groups. rewrite list_elem_of_filter, list_elem_of_fmap.
  intros [Hm [c [-> _]]]; simpl in *.
  assert (Hs : list_to_set (remove_dups (member <$> filter (fun e => key e = c)
                  (filter (fun e => qualifies today lb e) events)))
               = members_set key member today lb events c).
  { unfold members_set. apply leibniz_equiv. intros x.
    rewrite !elem_of_list_to_set, elem_of_remove_dups, !list_elem_of_fmap.
    split; intros [e [-> He]]; exists e; rewrite !list_elem_of_filter in *; naive_solver. }
  split; [done|]. split; [|done].
  rewrite <- Hs, <- (size_list_to_set (C:=gset nat)) by apply NoDup_remove_dups. done.
Qed.

Lemma rank_limit_elem part k sps x :
  x ∈ rank_limit part k sps -> x ∈ sps.
Proof.
  unfold rank_limit. rewrite list_elem_of_bind. intros [y [Hx _]].
  apply subseteq_take in Hx. rewrite sort_desc_perm, list_elem_of_filter in Hx. tauto.
Qed.

Lemma compute_rows_elem p today now events r :
  r ∈ compute_rows key member p today now events ->
  exists a b,
    a ∈ groups key member today (lookback_days p) (min_interactions p) events /\
    b ∈ groups key member today (lookback_days p) (min_interactions p) events /\
    min_common p <= ip_intersection (pair_of a b) /\
    PrimFloat.leb (min_jaccard p) (sp_jaccard (score_pair (pair_of a b))) = true /\
    (r = out_row now (g_id a) (g_id b) (score_pair (pair_of a b)) \/
     r = out_row now (g_id b) (g_id a) (score_pair (pair_of a b))).
Proof.
  unfold compute_rows. rewrite elem_of_app, !list_elem_of_fmap.
  intros [[sp [-> Hsp]] | [sp [-> Hsp]]]; apply rank_limit_elem in Hsp;
    unfold scored_pairs in Hsp; rewrite list_elem_of_filter, list_elem_of_fmap in Hsp;
    destruct Hsp as [Hj [ip [-> Hip]]];
    unfold pairs in Hip; rewrite list_elem_of_filter in Hip; destruct Hip as [Hc Hip];
    rewrite list_elem_of_bind in Hip; destruct Hip as [a [Hip Ha]];
    rewrite list_elem_of_bind in Hip; destruct Hip as [b [Hip Hb]];
    apply list_elem_of_singleton in Hip as ->;
    rewrite list_elem_of_filter in Hb; destruct Hb as [_ Hb];
    exists a, b; repeat split; auto.
Qed.
End Generic.
End SimilarityFacts.

Module SimilarityClaims.
Import Similarity Scenarios SimilarityFacts.

Lemma u64_mul_small (a b : nat) :
  (Z.of_nat (a * b) < 2 ^ 64)%Z -> u64_mul a b = a * b.
Proof.
  intros H. unfold u64_mul. rewrite <- Nat2Z.inj_mul, Z.mod_small by lia.
  apply Nat2Z.id.
Qed.


(** C1: every row the item-item job stores has the score
    [0.6 * jaccard + 0.4 * cosine] with [jaccard = |U_A ∩ U_B| / |U_A ∪ U_B|]
    and [cosine = |U_A ∩ U_B| / sqrt(|U_A| * |U_B|)] (binary64 arithmetic,
    as ClickHouse computes it), for qualifying user sets meeting the
    interaction thresholds; and on the spec's scenario (users 1..10 and
    5..14, [min_co_interactions = 5], [min_jaccard = 0.05]) the pair is kept
    in both directions with jaccard [6/14], cosine [0.6] and score
    [0.6 * (6/14) + 0.4 * 0.6]. *)
Theorem item_similarity_score :
  (forall (p : params) (today now : Z) (events : list watch_event) (r : sim_row),
    r ∈ item_rows p today now events ->
    let UA := users_of_item today (lookback_days p) events (item_id r) in
    let UB := users_of_item today (lookback_days p) events (similar_item_id r) in
    (Z.of_nat (size UA * size UB) < 2 ^ 64)%Z ->
    min_interactions p <= size UA /\ min_interactions p <= size UB /\
    min_common p <= size (UA ∩ UB) /\
    co_interaction_count r = size (UA ∩ UB) /\
    jaccard_score r = (float_of_nat (size (UA ∩ UB)) / float_of_nat (size (UA ∪ UB)))%float /\
    cosine_score r = (float_of_nat (size (UA ∩ UB))
                      / PrimFloat.sqrt (float_of_nat (size UA * size UB)))%float /\
    similarity_score r = (0.6 * jaccard_score r + 0.4 * cosine_score r)%float /\
    PrimFloat.leb (min_jaccard p) (jaccard_score r) = true)
  /\ item_rows scenario_params 100 8640000 scenario_events
     = [scenario_row 1 2; scenario_row 2 1].
Proof.
  split; [|vm_compute; reflexivity].
  intros p today now events r Hr UA UB Hbound.
  destruct (compute_rows_elem _ _ _ _ _ _ _ Hr)
    as [a [b [Ha [Hb [Hc [Hj Hor]]]]]].
  destruct (groups_elem _ _ _ _ _ _ _ Ha) as [Sa [Ca Ma]].
  destruct (groups_elem _ _ _ _ _ _ _ Hb) as [Sb [Cb Mb]].
  unfold pair_of in Hc; simpl in Hc.
  rewrite length_arrayIntersect, Sa, Sb in Hc.
  destruct Hor as [-> | ->]; subst UA UB; unfold users_of_item in *; simpl in *.
  - rewrite u64_mul_small, Ca, Cb in * by (rewrite Ca, Cb; done).
    unfold pair_of in *; simpl in *.
    rewrite ?length_arrayIntersect, ?length_arrayDistinct_app, ?Sa, ?Sb in *.
    repeat split; try lia; try done.
  - rewrite u64_mul_small, Ca, Cb in * by (rewrite Ca, Cb, Nat.mul_comm; done).
    unfold pair_of in *; simpl in *.
    rewrite ?length_arrayIntersect, ?length_arrayDistinct_app, ?Sa, ?Sb in *.
    rewrite (intersection_comm_L (members_set _ _ _ _ _ (g_id b))),
            (union_comm_L (members_set _ _ _ _ _ (g_id b))),
            (Nat.mul_comm (size (members_set _ _ _ _ _ (g_id b)))).
    repeat split; try lia; try done.
Qed.

(** The general part of [item_similarity_score] applied to the scenario's
    row [(1, 2)]: its stored co-interaction count is [|U_1 ∩ U_2| = 6]. *)
Lemma item_similarity_score_witness :
  scenario_row 1 2 ∈ item_rows scenario_params 100 8640000 scenario_events /\
  co_interaction_count (scenario_row 1 2)
  = size (users_of_item 100 30 scenario_events 1 ∩ users_of_item 100 30 scenario_events 2).
Proof.
  assert (Hin : scenario_row 1 2 ∈ item_rows scenario_params 100 8640000 scenario_events).
  { rewrite (proj2 item_similarity_score). left. }
  split; [exact Hin|].
  apply (proj1 item_similarity_score scenario_params 100%Z 8640000%Z scenario_events
           (scenario_row 1 2) Hin); vm_compute; reflexivity.
Defined.

End SimilarityClaims.

(* ------------------------------------------------------------------ *)
(** ** Rows per item after a compute cycle *)



Module SimilarityCounts.
Import Similarity.




End SimilarityCounts.

Module RetentionClaims.
Import Similarity Scenarios SimilarityCounts.

(** The two windows of [compute_query] rank each direction on its own: on
    an empty table, with [top_k_per_item = 1], item 2 (paired with item 1
    as [item_b] and with item 3 as [item_a]) gets two rows. *)
Lemma item_rows_per_direction :
  top_k top1_params = 1 /\
  length (filter (fun r => item_id r = 2)
    (compute_item_similarity no_failures top1_params 100 8640000 chain_events []).2) = 2.
Proof. split; [reflexivity | vm_compute; reflexivity]. Qed.




End RetentionClaims.

(* ------------------------------------------------------------------ *)
(** ** Error handling of the jobs and of the orchestrator *)

Module JobErrorClaims.
Import Similarity Pipeline.

Lemma run_job_not_raise {R} o (cleanup : option (list R -> list R)) ins st tbl e :
  (run_job o cleanup ins st tbl).1 <> Raise e.
Proof.
  unfold run_job. destruct (compute_fails o), (stats_fails o); simpl; discriminate.
Qed.

(** C8: when the compute query or the statistics query of
    [compute_item_similarity], [compute_user_similarity] or
    [update_user_recent_items] raises with message [m], the method returns
    [{"error": m}] instead of raising; and [run_similarity_computation]
    always goes on through the three jobs and returns the three results,
    whatever their queries did. *)
Theorem similarity_jobs_catch_errors :
  (forall o m,
     (compute_fails o = Some m \/ (compute_fails o = None /\ stats_fails o = Some m)) ->
     forall p today now events tbl lb rtbl,
       (compute_item_similarity o p today now events tbl).1 = Ok (error_dict m) /\
       (compute_user_similarity o p today now events tbl).1 = Ok (error_dict m) /\
       (update_user_recent_items o lb today now events rtbl).1 = Ok (error_dict m))
  /\ (forall o_item o_user o_recent lookback today now events db,
        exists d1 d2 d3,
          (run_similarity_computation o_item o_user o_recent lookback today now events db).1
          = Ok [("item", d1); ("user", d2); ("recent", d3)]).
Proof.
  split.
  - intros o m Hm p today now events tbl lb rtbl.
    unfold compute_item_similarity, compute_user_similarity, update_user_recent_items, run_job.
    destruct Hm as [-> | [-> ->]]; destruct (clear_fails o); repeat split.
  - intros o_item o_user o_recent lookback today now events db.
    unfold run_similarity_computation.
    destruct (compute_item_similarity _ _ _ _ _ _) as [[d1|e1] t1] eqn:E1;
      [|apply (f_equal fst) in E1; unfold compute_item_similarity in E1;
        exfalso; eapply run_job_not_raise; exact E1].
    destruct (compute_user_similarity _ _ _ _ _ _) as [[d2|e2] t2] eqn:E2;
      [|apply (f_equal fst) in E2; unfold compute_user_similarity in E2;
        exfalso; eapply run_job_not_raise; exact E2].
    destruct (update_user_recent_items _ _ _ _ _ _) as [[d3|e3] t3] eqn:E3;
      [|apply (f_equal fst) in E3; unfold update_user_recent_items in E3;
        exfalso; eapply run_job_not_raise; exact E3].
    eauto.
Qed.

End JobErrorClaims.

Module PipelineClaims.
Import Pipeline.

Lemma run_stages_app {world} (run_stage : stage -> world -> Exc (string * world))
    l1 l2 w d :
  run_stages run_stage (l1 ++ l2) w d =
  match run_stages run_stage l1 w d with
  | (r, Ok w') => run_stages run_stage l2 w' r
  | (r, Raise e) => (r, Raise e)
  end.
Proof.
  revert w d. induction l1 as [|s t IH]; intros w d; simpl; [done|].
  destruct (run_stage s w) as [[v w']|e]; [apply IH|done].
Qed.

(** C9: when stage [s] raises [e] after the stages selected before it ran
    without error, [main] returns exit status 1, logs
    ["Pipeline failed: ..."] with [exc_info=True] (the stack trace), and
    the stages entered are exactly those before [s] and [s] itself, each
    once: none after [s] runs and [s] is not retried. *)
Theorem main_aborts_on_stage_error {world} (run_stage : stage -> world -> Exc (string * world))
    fl w pre s post w' e :
  selected fl = pre ++ s :: post ->
  run_stages run_stage pre w [] = (pre, Ok w') ->
  run_stage s w' = Raise e ->
  main run_stage fl w
  = (1%Z, pre ++ [s], [LogError ("Pipeline failed: " +:+ exn_msg e) true], None).
Proof.
  intros Hsel Hpre Hs. unfold main.
  rewrite Hsel, run_stages_app, Hpre. simpl. rewrite Hs. reflexivity.
Qed.

(** No flag given: all four stages; the sync stage fails. *)
Lemma main_aborts_on_stage_error_witness :
  let fl := {| f_all := false; f_similarity := false; f_sync := false;
               f_extract := false; f_train := false |} in
  let rs (s : stage) (w : nat) : Exc (string * nat) :=
    match s with SSync => Raise (QueryError "Connection refused") | _ => Ok ("done", S w) end in
  selected fl = [SSimilarity] ++ SSync :: [SExtract; STrain] /\
  run_stages rs [SSimilarity] 0 [] = ([SSimilarity], Ok 1) /\
  rs SSync 1 = Raise (QueryError "Connection refused") /\
  main rs fl 0
  = (1%Z, [SSimilarity; SSync],
     [LogError ("Pipeline failed: " +:+ "Connection refused") true], None).
Proof.
  intros fl rs.
  split; [reflexivity|]. split; [reflexivity|]. split; [reflexivity|].
  apply (main_aborts_on_stage_error rs fl 0 [SSimilarity] SSync [SExtract; STrain] 1
           (QueryError "Connection refused")); reflexivity.
Defined.

End PipelineClaims.

(* ------------------------------------------------------------------ *)
(** ** The training build *)

Module TrainingFacts.
Import Training.

Lemma omap_seq_shift {A} (g : nat -> option A) k n :
  omap g (seq (S k) n) = omap (fun i => g (S i)) (seq k n).
Proof.
  revert k. induction n as [|n IH]; intros k; [done|].
  simpl. rewrite IH. done.
Qed.

Lemma omap_lookup_seq {A} (l : list A) (g : nat -> option A) :
  (forall i, g i = l !! i) -> omap g (seq 0 (length l)) = l.
Proof.
  revert g. induction l as [|x t IH]; intros g Hg; [done|].
  simpl. rewrite (Hg 0). simpl. f_equal.
  rewrite omap_seq_shift. apply IH. intros i. apply Hg.
Qed.

(** With a permutation of the row numbers, [shuffle] permutes the rows. *)
Lemma shuffle_rows perm df :
  (forall n, perm n ≡ₚ seq 0 n) -> rows (shuffle perm df) ≡ₚ rows df.
Proof.
  intros Hperm. simpl. rewrite (Hperm (length (rows df))).
  rewrite (omap_lookup_seq (rows df)); done.
Qed.


Lemma join_rows F ff df : rows (join_features F ff df).1 = rows df.
Proof.
  unfold join_features. case_bool_decide; [done|].
  case_bool_decide; done.
Qed.

Lemma bucket_column_length edges xs bs :
  bucket_column edges xs = Ok bs -> length bs = length xs.
Proof.
  unfold bucket_column. destruct (mapM (cut edges) xs) as [l|] eqn:E; [|discriminate].
  intros [= <-]. rewrite length_fmap.
  apply mapM_Some_1 in E. symmetry. eapply Forall2_length. done.
Qed.

Lemma base_zip_with {B} (f : frow -> B -> frow) (l : list frow) (zs : list B) :
  (forall r b, base (f r b) = base r) -> length l <= length zs ->
  base <$> zip_with f l zs = base <$> l.
Proof.
  intros Hf. revert zs. induction l as [|r t IH]; intros [|z zs] Hl; simpl in *; try done; [lia|].
  rewrite Hf, IH by lia. done.
Qed.

(** [compute_derived_features] only adds columns: the sample part of each
    row is kept, in order. *)
Lemma derived_rows_base df df' :
  compute_derived_features df = Ok df' -> base <$> rows df' = base <$> rows df.
Proof.
  unfold compute_derived_features. case_bool_decide; [intros [= <-]; done|].
  unfold exc_bind.
  destruct (col df "day_of_week"); [|discriminate].
  destruct (col df "hour_of_day"); [|discriminate].
  destruct (col df "position_in_feed"); [|discriminate].
  destruct (bucket_column position_bins _) as [pos|] eqn:Ep; [|discriminate].
  destruct (col df "completion_rate"); [|discriminate].
  destruct (bucket_column completion_bins _) as [comp|] eqn:Ec; [|discriminate].
  destruct (col df "recall_source"); [|discriminate].
  intros [= <-]. simpl.
  apply bucket_column_length in Ep, Ec. rewrite !length_fmap in Ep, Ec.
  apply base_zip_with; [done|]. rewrite length_zip_with. lia.
Qed.

Lemma build_ok_samples perm E s e r df qs ws :
  (forall n, perm n ≡ₚ seq 0 n) ->
  build_training_dataset perm E s e r = (Ok df, qs, ws) ->
  exists lim,
    py_int (float_of_nat (length (filter (fun x => in_range s e x /\ t_label x = 1%nat) (tbl E))) * r)%float
      = Ok lim /\ (0 <= lim)%Z /\
    base <$> rows df ≡ₚ positives (tbl E) s e
                        ++ take (Z.to_nat lim) (order_by_rand (rand_keys E) (negatives_available (tbl E) s e)).
Proof.
  intros Hperm Hb. unfold build_training_dataset, extract_negative_samples in Hb.
  destruct (py_int _) as [lim|ex] eqn:Hp; cbv iota beta in Hb; [|discriminate Hb].
  unfold negative_query in Hb. case_bool_decide as Hlim; cbv iota beta in Hb; [discriminate Hb|].
  exists lim. split; [done|]. split; [lia|].
  case_bool_decide as Hnil.
  - injection Hb as <- _ _. simpl. rewrite <- list_fmap_compose. simpl. rewrite list_fmap_id. done.
  - destruct (join_features _ _ _) as [joined ws'] eqn:Ej. cbv iota beta in Hb.
    destruct (compute_derived_features joined) as [df'|ex] eqn:Ed; [|discriminate Hb].
    injection Hb as <- _ _.
    rewrite (shuffle_rows perm df' Hperm).
    rewrite (derived_rows_base _ _ Ed).
    pose proof (join_rows (features E) (features_fail E) (frame_of (positives (tbl E) s e ++ take (Z.to_nat lim) (order_by_rand (rand_keys E) (negatives_available (tbl E) s e))))) as Hj.
    rewrite Ej in Hj. simpl in Hj. rewrite Hj.
    rewrite <- list_fmap_compose. simpl. rewrite list_fmap_id. done.
Qed.








End TrainingFacts.

Module TrainingClaims.
Import Training TrainingScenarios TrainingFacts.






(** The same two draws give datasets with different users whatever
    permutation the seeded shuffle applies. *)
Lemma build_depends_on_rand_draw_any_shuffle perm keys u1 :
  (forall n, perm n ≡ₚ seq 0 n) ->
  (keys, u1) = ([1; 2]%Z, 2) \/ (keys, u1) = ([2; 1]%Z, 3) ->
  exists d, (build_training_dataset perm (draw_env keys) 10 10 1.0).1.1 = Ok d /\
            (fun x => t_user_id (base x)) <$> rows d ≡ₚ [1; u1].
Proof.
  intros Hperm Hk.
  destruct (build_training_dataset perm (draw_env keys) 10 10 1.0)
    as [[[d|ex] qs] ws] eqn:Hb.
  - exists d. split; [reflexivity|].
    destruct (build_ok_samples _ _ _ _ _ _ _ _ Hperm Hb) as [lim [Hp [_ Hrows]]].
    vm_compute in Hp. injection Hp as <-.
    change ((fun x : frow => t_user_id (base x)) <$> rows d) with ((t_user_id ∘ base) <$> rows d).
    rewrite list_fmap_compose, Hrows.
    destruct Hk as [Hk|Hk]; injection Hk as -> ->; vm_compute; reflexivity.
  - exfalso. destruct Hk as [Hk|Hk]; injection Hk as -> ->; vm_compute in Hb; discriminate Hb.
Qed.








End TrainingClaims.

(* ------------------------------------------------------------------ *)
(** ** The cache sync *)

Module SyncFacts.
Import Similarity Sync SyncScenarios.

Lemma item_key_inj a b : item_key a = item_key b -> a = b.
Proof.
  unfold item_key. intros H.
  apply (inj (String.append ITEM_SIMILAR_KEY)), (inj pretty) in H. lia.
Qed.

Lemma execute_bind c (l : list page_row) :
  execute c (l ≫= row_cmds) = apply_rows c l.
Proof.
  revert c. induction l as [|g t IH]; intros c; [done|].
  rewrite bind_cons. unfold execute in *. rewrite foldl_app. apply IH.
Qed.

(** The commands of one row replace whatever its key held. *)
Lemma execute_row_cmds c g :
  execute c (row_cmds g)
  = match row_entry g with
    | Some e => <[item_key (pr_item_id g) := e]> c
    | None => delete (item_key (pr_item_id g)) c
    end.
Proof.
  unfold row_entry, row_cmds, execute. case_bool_decide; simpl; [|done].
  rewrite lookup_delete_eq. simpl. rewrite lookup_insert_eq, insert_insert_eq, insert_delete_eq.
  rewrite (right_id ∅ (∪)). done.
Qed.

Lemma apply_rows_cons c g l :
  apply_rows c (g :: l) = apply_rows (execute c (row_cmds g)) l.
Proof. reflexivity. Qed.

Lemma apply_rows_other c l k :
  (forall g, g ∈ l -> item_key (pr_item_id g) <> k) -> apply_rows c l !! k = c !! k.
Proof.
  revert c. induction l as [|g t IH]; intros c Hl; [done|].
  rewrite apply_rows_cons.
  rewrite IH by (intros g' Hg'; apply Hl; right; done).
  rewrite execute_row_cmds.
  destruct (row_entry g); [apply lookup_insert_ne | apply lookup_delete_ne];
    apply Hl; left.
Qed.

Lemma apply_rows_hit c l g :
  NoDup (pr_item_id <$> l) -> g ∈ l -> apply_rows c l !! item_key (pr_item_id g) = row_entry g.
Proof.
  revert c. induction l as [|h t IH]; intros c Hnd Hg; [inversion Hg|].
  rewrite fmap_cons in Hnd. apply NoDup_cons in Hnd as [Hh Hnd].
  rewrite apply_rows_cons.
  apply elem_of_cons in Hg as [<-|Hg]; [|apply IH; done].
  rewrite apply_rows_other.
  - rewrite execute_row_cmds. destruct (row_entry g);
      [apply lookup_insert_eq | apply lookup_delete_eq].
  - intros g' Hg' Hk. apply item_key_inj in Hk. apply Hh.
    rewrite <- Hk. apply list_elem_of_fmap. eauto.
Qed.

(** Applying the same rows twice leaves what applying them once left. *)
Lemma apply_rows_twice c l :
  NoDup (pr_item_id <$> l) -> apply_rows (apply_rows c l) l = apply_rows c l.
Proof.
  intros Hnd. apply map_eq. intros k.
  destruct (decide (Exists (fun g => item_key (pr_item_id g) = k) l)) as [He|Hn].
  - apply Exists_exists in He as [g [Hg <-]].
    rewrite !apply_rows_hit by done. done.
  - apply apply_rows_other. intros g Hg Hk. apply Hn, Exists_exists. eauto.
Qed.

Lemma length_grouped k rows : length (grouped k rows) = total_items rows.
Proof.
  unfold grouped, total_items. rewrite length_fmap, merge_sort_Permutation. done.
Qed.

Lemma grouped_ids k rows :
  pr_item_id <$> grouped k rows = merge_sort (≤) (remove_dups (item_id <$> rows)).
Proof.
  unfold grouped. generalize (merge_sort (≤) (remove_dups (item_id <$> rows))).
  intros L. induction L as [|x t IH]; [done|]. simpl. f_equal. exact IH.
Qed.

Lemma grouped_NoDup k rows : NoDup (pr_item_id <$> grouped k rows).
Proof.
  rewrite grouped_ids, merge_sort_Permutation. apply NoDup_remove_dups.
Qed.

(** The loop pages through all result rows, [batch_size] at a time. *)
Lemma sync_loop_apply fuel k b off rows cs :
  1 <= b -> total_items rows - off < fuel ->
  (sync_loop fuel k b off (total_items rows) rows cs).1
  = apply_rows cs.1 (drop off (grouped k rows)).
Proof.
  revert off cs. induction fuel as [|f IH]; intros off cs Hb Hf; [lia|].
  simpl. case_bool_decide as Hlt.
  - rewrite IH by lia. simpl. unfold page_query.
    rewrite execute_bind. unfold apply_rows.
    rewrite <- foldl_app, <- drop_drop, take_drop. done.
  - rewrite drop_ge by (rewrite length_grouped; lia). done.
Qed.

Lemma sync_apply b k rows c :
  1 <= b ->
  exists st, sync_item_similarity b k rows c = Some (apply_rows c (grouped k rows), st).
Proof.
  intros Hb. unfold sync_item_similarity.
  rewrite bool_decide_false by lia.
  set (r := sync_loop _ _ _ _ _ _ _). exists r.2. f_equal.
  rewrite (surjective_pairing r) at 1. f_equal.
  subst r. rewrite sync_loop_apply by lia. reflexivity.
Qed.

End SyncFacts.

Module SyncClaims.
Import Similarity Sync SyncScenarios SyncFacts.






(** C5 (counterexample): item 1 has two neighbours tied at 0.5 and
    [top_k = 1].  The first run reads the tied rows in one order, the second
    run (on the cache the first left) in the other order, and the key of
    item 1 holds neighbour 2 after the first run but neighbour 3 after the
    second. *)
Lemma sync_ties_follow_scan_order :
  match sync_item_similarity 100 1 tie_rows ∅ with
  | Some (c1, _) =>
      match sync_item_similarity 100 1 (reverse tie_rows) c1 with
      | Some (c2, _) =>
          zs <$> c1 !! item_key 1 = Some {[2 := 0.5%float]} /\
          zs <$> c2 !! item_key 1 = Some {[3 := 0.5%float]}
      | None => False
      end
  | None => False
  end.
Proof. vm_compute. split; reflexivity. Qed.


(** C5 (amended): two runs of [sync_item_similarity] in succession, with
    the same [batch_size] and [top_k], that read the table's rows in the
    same order leave the same cache: after the second run every key holds
    what it held after the first (members, scores and TTL).  Which of
    several neighbours tied in score survive the [top_k] cut follows the
    order the rows are read in. *)
Theorem sync_twice_same_cache b k rows c c1 st1 c2 st2 :
  sync_item_similarity b k rows c = Some (c1, st1) ->
  sync_item_similarity b k rows c1 = Some (c2, st2) ->
  c2 = c1.
Proof.
  destruct (decide (1 <= b)) as [Hb|Hb].
  - destruct (sync_apply b k rows c Hb) as [s1 E1].
    destruct (sync_apply b k rows c1 Hb) as [s2 E2].
    rewrite E1. intros [= <- _]. rewrite E2. intros [= <- _].
    apply apply_rows_twice, grouped_NoDup.
  - assert (b = 0) as -> by lia.
    unfold sync_item_similarity.
    destruct (total_items rows) as [|n].
    + rewrite bool_decide_false by lia. simpl.
      intros [= <- _] [= <- _]. done.
    + rewrite bool_decide_true by lia. discriminate.
Qed.

Lemma sync_twice_same_cache_witness :
  match sync_item_similarity 100 2 four_rows stale_cache with
  | Some (c1, st1) =>
      match sync_item_similarity 100 2 four_rows c1 with
      | Some (c2, st2) => c2 = c1
      | None => False
      end
  | None => False
  end.
Proof.
  destruct (sync_item_similarity 100 2 four_rows stale_cache) as [[c1 st1]|] eqn:E1;
    [|vm_compute in E1; discriminate E1].
  destruct (sync_item_similarity 100 2 four_rows c1) as [[c2 st2]|] eqn:E2.
  - exact (sync_twice_same_cache 100 2 four_rows stale_cache c1 st1 c2 st2 E1 E2).
  - destruct (sync_apply 100 2 four_rows c1) as [s E]; [lia|]. congruence.
Defined.

End SyncClaims.

(* ------------------------------------------------------------------ *)
(** ** The sync jobs of [similarity_sync.py] *)

Module SyncJobFacts.
Import Similarity Sync SyncJobs.

Lemma ceil_step total off b :
  1 <= b -> off < total ->
  (total - off + b - 1) / b = S ((total - (off + b) + b - 1) / b).
Proof.
  intros Hb Hlt.
  destruct (decide (b <= total - off)) as [Hle|Hgt].
  - replace (total - off + b - 1) with ((total - (off + b) + b - 1) + 1 * b) by lia.
    rewrite Nat.div_add by lia. lia.
  - replace (total - (off + b)) with 0 by lia. simpl.
    rewrite (Nat.div_small (b - 1) b) by lia.
    symmetry. apply (Nat.div_unique _ _ 1 (total - off - 1)); lia.
Qed.

Lemma ceil_done total off b :
  1 <= b -> total <= off -> (total - off + b - 1) / b = 0.
Proof. intros Hb Hle. apply Nat.div_small. lia. Qed.

Lemma count_rows_fields st l :
  foldl count_row st l =
  {| items_processed := items_processed st + length l;
     pairs_synced := pairs_synced st + sum_list_with row_pairs l;
     errors := errors st |}.
Proof.
  revert st. induction l as [|r t IH]; intros st; simpl.
  - destruct st; simpl. f_equal; lia.
  - rewrite IH. simpl. unfold row_pairs. f_equal; lia.
Qed.


Lemma iter_errors n st :
  Nat.iter n errors_plus1 st =
  {| items_processed := items_processed st; pairs_synced := pairs_synced st;
     errors := n + errors st |}.
Proof.
  induction n as [|n IH]; simpl; [destruct st; reflexivity|].
  rewrite IH. reflexivity.
Qed.

Section Generic.
Context (key : nat -> string) (key_ttl : Z).

Lemma job_exec_row c g :
  execute c (job_row_cmds key key_ttl g)
  = match job_entry key_ttl g with
    | Some e => <[key (pr_item_id g) := e]> c
    | None => delete (key (pr_item_id g)) c
    end.
Proof.
  unfold job_entry, job_row_cmds, execute. case_bool_decide; simpl; [|done].
  rewrite lookup_delete_eq. simpl. rewrite lookup_insert_eq, insert_insert_eq, insert_delete_eq.
  rewrite (right_id ∅ (∪)). done.
Qed.

Lemma job_execute_bind c (l : list page_row) :
  execute c (l ≫= job_row_cmds key key_ttl) = job_apply key key_ttl c l.
Proof.
  revert c. induction l as [|g t IH]; intros c; [done|].
  rewrite bind_cons. unfold execute in *. rewrite foldl_app. apply IH.
Qed.

Lemma job_apply_cons c g l :
  job_apply key key_ttl c (g :: l) = job_apply key key_ttl (execute c (job_row_cmds key key_ttl g)) l.
Proof. reflexivity. Qed.

Lemma job_apply_other c l k :
  (forall g, g ∈ l -> key (pr_item_id g) <> k) -> job_apply key key_ttl c l !! k = c !! k.
Proof.
  revert c. induction l as [|g t IH]; intros c Hl; [done|].
  rewrite job_apply_cons.
  rewrite IH by (intros g' Hg'; apply Hl; right; done).
  rewrite job_exec_row.
  destruct (job_entry key_ttl g); [apply lookup_insert_ne | apply lookup_delete_ne];
    apply Hl; left.
Qed.

Lemma job_apply_hit c l g :
  Inj (=) (=) key ->
  NoDup (pr_item_id <$> l) -> g ∈ l -> job_apply key key_ttl c l !! key (pr_item_id g) = job_entry key_ttl g.
Proof.
  intros Hinj. revert c. induction l as [|h t IH]; intros c Hnd Hg; [inversion Hg|].
  rewrite fmap_cons in Hnd. apply NoDup_cons in Hnd as [Hh Hnd].
  rewrite job_apply_cons.
  apply elem_of_cons in Hg as [<-|Hg]; [|apply IH; done].
  rewrite job_apply_other.
  - rewrite job_exec_row. destruct (job_entry key_ttl g);
      [apply lookup_insert_eq | apply lookup_delete_eq].
  - intros g' Hg' Hk. apply Hinj in Hk. apply Hh.
    rewrite <- Hk. apply list_elem_of_fmap. eauto.
Qed.

Lemma page_sub (all : list page_row) b off : take b (drop off all) ⊆ all.
Proof.
  apply sublist_subseteq. etrans; [apply sublist_take|apply sublist_drop].
Qed.

(** Every batch succeeding: the loop applies all rows from [off] on. *)
Lemma job_loop_ok fuel all b off cs :
  1 <= b -> length all - off < fuel ->
  job_loop key key_ttl fuel (fun _ => BatchOk) all b off (length all) cs
  = (job_apply key key_ttl cs.1 (drop off all), foldl count_row cs.2 (drop off all)).
Proof.
  revert off cs. induction fuel as [|f IH]; intros off cs Hb Hf; [lia|].
  simpl. case_bool_decide as Hlt.
  - rewrite IH by lia. unfold job_page. simpl.
    rewrite job_execute_bind. unfold job_apply.
    rewrite <- !foldl_app, <- drop_drop, take_drop. done.
  - rewrite drop_ge by lia. destruct cs. done.
Qed.


(** Every page query failing: nothing is counted but the errors. *)
Lemma job_loop_query_fails fuel all b off cs :
  1 <= b -> length all - off < fuel ->
  job_loop key key_ttl fuel (fun _ => QueryFails) all b off (length all) cs
  = (cs.1, Nat.iter ((length all - off + b - 1) / b) errors_plus1 cs.2).
Proof.
  revert off cs. induction fuel as [|f IH]; intros off cs Hb Hf; [lia|].
  simpl. case_bool_decide as Hlt.
  - rewrite IH by lia. unfold job_page. simpl.
    rewrite (ceil_step _ off) by lia. rewrite Nat.iter_succ_r. done.
  - rewrite ceil_done by lia. destruct cs. done.
Qed.

(** Whatever the batches do, a key no row maps to is left alone. *)
Lemma job_loop_frame fuel o all b off total cs k :
  (forall g, g ∈ all -> key (pr_item_id g) <> k) ->
  (job_loop key key_ttl fuel o all b off total cs).1 !! k = cs.1 !! k.
Proof.
  intros Hk. revert off cs. induction fuel as [|f IH]; intros off cs; [done|].
  simpl. case_bool_decide; [|done].
  rewrite IH. unfold job_page. destruct (o off); simpl; [|done|done].
  rewrite job_execute_bind. apply job_apply_other.
  intros g Hg. apply Hk. eapply page_sub; eauto.
Qed.

Lemma run_sync_frame o b total all c c' st k :
  run_sync key key_ttl o b total all c = Some (c', st) ->
  (forall g, g ∈ all -> key (pr_item_id g) <> k) -> c' !! k = c !! k.
Proof.
  unfold run_sync. case_bool_decide; [discriminate|].
  intros Hs Hk.
  pose proof (job_loop_frame (S total) o all b 0 total (c, zero_stats) k Hk) as F.
  assert (E : job_loop key key_ttl (S total) o all b 0 total (c, zero_stats) = (c', st)) by congruence.
  rewrite E in F. exact F.
Qed.

Lemma run_sync_ok b all c :
  1 <= b ->
  run_sync key key_ttl (fun _ => BatchOk) b (length all) all c
  = Some (job_apply key key_ttl c all, foldl count_row zero_stats all).
Proof.
  intros Hb. unfold run_sync. rewrite bool_decide_false by lia.
  rewrite job_loop_ok by lia. done.
Qed.


Lemma run_sync_query_fails b all c :
  1 <= b ->
  run_sync key key_ttl (fun _ => QueryFails) b (length all) all c
  = Some (c, Nat.iter ((length all + b - 1) / b) errors_plus1 zero_stats).
Proof.
  intros Hb. unfold run_sync. rewrite bool_decide_false by lia.
  rewrite job_loop_query_fails by lia. rewrite Nat.sub_0_r. done.
Qed.
End Generic.


Lemma sum_list_with_fmap {A B} (f : B -> nat) (h : A -> B) (l : list A) :
  sum_list_with f (h <$> l) = sum_list_with (f ∘ h) l.
Proof.
  induction l as [|x t IH]; [done|]. rewrite fmap_cons. cbn [sum_list_with].
  rewrite IH. done.
Qed.

Lemma sum_list_with_ext {A} (f g : A -> nat) (l : list A) :
  (forall x, x ∈ l -> f x = g x) -> sum_list_with f l = sum_list_with g l.
Proof.
  induction l as [|x t IH]; intros H; simpl; [done|].
  rewrite (H x) by left. rewrite IH; [done|]. intros y Hy. apply H. right. done.
Qed.

Lemma sum_list_with_perm {A} (f : A -> nat) (l l' : list A) :
  l ≡ₚ l' -> sum_list_with f l = sum_list_with f l'.
Proof.
  induction 1; simpl; lia.
Qed.





Lemma imap_pairs {A} (f : A -> nat) (g : A -> float) (d : float) (t : list A) :
  imap (fun i s => (s, default d ((g <$> t) !! i))) (f <$> t) = (fun r => (f r, g r)) <$> t.
Proof.
  apply list_eq. intros i. rewrite list_lookup_imap, !list_lookup_fmap.
  destruct (t !! i); done.
Qed.

Lemma take_fmap_take {A B} (f : A -> B) k (l : list A) :
  take k (f <$> take k l) = f <$> take k l.
Proof. rewrite fmap_take, take_take, Nat.min_id. done. Qed.

Section Entry.
Context (key_ttl : Z) {A : Type} (f : A -> nat) (g : A -> float).

Lemma job_entry_group x k l :
  job_entry key_ttl (kept_row f g x k l)
  = if bool_decide (take k l = []) then None
    else Some {| zs := dict_of ((fun r => (f r, g r)) <$> take k l); ttl := Some key_ttl |}.
Proof.
  unfold job_entry, kept_row. cbn [pr_similar pr_scores]. rewrite !take_fmap_take, imap_pairs.
  destruct (take k l) as [|r t] eqn:E; simpl;
    repeat case_bool_decide; (done || naive_solver).
Qed.

Lemma row_pairs_group x k l : row_pairs (kept_row f g x k l) = min k (length l).
Proof.
  unfold row_pairs, kept_row. cbn [pr_similar pr_scores]. rewrite !take_fmap_take.
  rewrite <- length_take.
  destruct (take k l) as [|r t] eqn:E; simpl;
    repeat case_bool_decide; rewrite ?length_fmap; (done || naive_solver).
Qed.
End Entry.






Global Instance item_key_inj' : Inj (=) (=) item_key.
Proof. intros a b. apply SyncFacts.item_key_inj. Qed.

Global Instance user_key_inj : Inj (=) (=) user_key.
Proof.
  intros a b. unfold user_key. intros H.
  apply (inj (String.append USER_SIMILAR_KEY)), (inj pretty) in H. lia.
Qed.

Global Instance recent_key_inj : Inj (=) (=) recent_key.
Proof.
  intros a b. unfold recent_key. intros H.
  apply (inj (String.append USER_RECENT_ITEMS_KEY)), (inj pretty) in H. lia.
Qed.

Lemma prefix_app p s : String.prefix p (p +:+ s) = true.
Proof.
  induction p as [|a p IH]; [destruct s; done|]. simpl.
  destruct (Ascii.ascii_dec a a); [exact IH|done].
Qed.

Lemma prefix_inv p k : String.prefix p k = true -> exists s, k = p +:+ s.
Proof.
  revert k. induction p as [|a p IH]; intros k H; [exists k; done|].
  destruct k as [|b k]; [discriminate|]. simpl in H.
  destruct (Ascii.ascii_dec a b) as [<-|]; [|discriminate].
  destruct (IH k H) as [s ->]. exists s. done.
Qed.

Section Groups.
Context {A : Type} (f : A -> nat) (g : A -> float) (k : nat) (L : nat -> list A).

Lemma groups_ids ids : pr_item_id <$> kept_groups f g k L ids = merge_sort (≤) (remove_dups ids).
Proof.
  unfold kept_groups. generalize (merge_sort (≤) (remove_dups ids)).
  intros l. induction l as [|x t IH]; [done|]. simpl. f_equal. exact IH.
Qed.

Lemma groups_NoDup ids : NoDup (pr_item_id <$> kept_groups f g k L ids).
Proof. rewrite groups_ids, merge_sort_Permutation. apply NoDup_remove_dups. Qed.

Lemma length_groups ids : length (kept_groups f g k L ids) = length (remove_dups ids).
Proof. unfold kept_groups. rewrite length_fmap, merge_sort_Permutation. done. Qed.

Lemma groups_rows_elem ids r : r ∈ kept_groups f g k L ids <-> exists x, x ∈ ids /\ r = kept_row f g x k (L x).
Proof.
  unfold kept_groups. rewrite list_elem_of_fmap.
  setoid_rewrite merge_sort_Permutation. setoid_rewrite elem_of_remove_dups. naive_solver.
Qed.

Lemma groups_pairs ids :
  sum_list_with row_pairs (kept_groups f g k L ids) = sum_list_with (fun x => min k (length (L x))) (remove_dups ids).
Proof.
  unfold kept_groups. rewrite sum_list_with_fmap, merge_sort_Permutation.
  apply sum_list_with_ext. intros x _. simpl. apply row_pairs_group.
Qed.

Context (key : nat -> string) `{!Inj (=) (=) key} (key_ttl : Z).

Lemma groups_apply_hit c ids x :
  x ∈ ids -> job_apply key key_ttl c (kept_groups f g k L ids) !! key x = job_entry key_ttl (kept_row f g x k (L x)).
Proof.
  intros Hx. change x with (pr_item_id (kept_row f g x k (L x))) at 1.
  apply job_apply_hit; [done|apply groups_NoDup|]. apply groups_rows_elem. eauto.
Qed.

Lemma groups_apply_other c ids s :
  (forall x, x ∈ ids -> key x <> s) -> job_apply key key_ttl c (kept_groups f g k L ids) !! s = c !! s.
Proof.
  intros Hs. apply job_apply_other. intros r Hr. apply groups_rows_elem in Hr as (x & Hx & ->).
  apply Hs. done.
Qed.

(** All batches succeeding: the cache afterwards and the statistics. *)
Lemma run_sync_groups b ids c :
  1 <= b ->
  run_sync key key_ttl (fun _ => BatchOk) b (length (remove_dups ids)) (kept_groups f g k L ids) c
  = Some (job_apply key key_ttl c (kept_groups f g k L ids),
          {| items_processed := length (remove_dups ids);
             pairs_synced := sum_list_with (fun x => min k (length (L x))) (remove_dups ids);
             errors := 0 |}).
Proof.
  intros Hb. rewrite <- (length_groups ids) at 1. rewrite run_sync_ok by done.
  rewrite count_rows_fields. cbn. rewrite length_groups, groups_pairs. done.
Qed.

Lemma run_sync_groups_frame o b ids c c' st s :
  run_sync key key_ttl o b (length (remove_dups ids)) (kept_groups f g k L ids) c = Some (c', st) ->
  (forall x, x ∈ ids -> key x <> s) -> c' !! s = c !! s.
Proof.
  intros H Hs. eapply run_sync_frame; [exact H|].
  intros r Hr. apply groups_rows_elem in Hr as (x & Hx & ->). apply Hs. done.
Qed.

Lemma groups_apply_some c ids x :
  1 <= k -> x ∈ ids -> L x <> [] -> is_Some (job_apply key key_ttl c (kept_groups f g k L ids) !! key x).
Proof.
  intros Hk Hx HL. rewrite groups_apply_hit by done. rewrite job_entry_group.
  rewrite bool_decide_false; [eauto|]. destruct (L x); [done|]. destruct k; [lia|]. discriminate.
Qed.

(** Which keys the rows leave set, when every group keeps a row. *)
Lemma groups_apply_dom c ids s :
  1 <= k -> (forall x, x ∈ ids -> L x <> []) ->
  is_Some (job_apply key key_ttl c (kept_groups f g k L ids) !! s)
  <-> (exists x, x ∈ ids /\ s = key x) \/ ((forall x, x ∈ ids -> key x <> s) /\ is_Some (c !! s)).
Proof.
  intros Hk HL.
  destruct (decide (Exists (fun x => s = key x) ids)) as [He|Hn].
  - apply Exists_exists in He as (x & Hx & ->).
    split; [eauto|]. intros _. apply groups_apply_some; auto.
  - rewrite Exists_exists in Hn.
    assert (Ho : forall x, x ∈ ids -> key x <> s) by naive_solver.
    rewrite groups_apply_other by done. naive_solver.
Qed.
End Groups.

Lemma grouped_groups k rows :
  grouped k rows = kept_groups similar_item_id similarity_score k
    (fun x => sort_desc similarity_score (filter (fun r => item_id r = x) rows)) (item_id <$> rows).
Proof. reflexivity. Qed.

Lemma grouped_recent_groups max w :
  grouped_recent max w = kept_groups r_post_id (fun r => Training.float_of_Z (r_interaction_time r)) max
    (fun u => sort_desc_Z r_interaction_time (filter (fun r => r_user_id r = u) w)) (r_user_id <$> w).
Proof. reflexivity. Qed.

Lemma insert_desc_Z_perm {A} (key : A -> Z) (x : A) (l : list A) :
  insert_desc_Z key x l ≡ₚ x :: l.
Proof.
  induction l as [|y t IH]; simpl; [done|].
  destruct (Z.ltb _ _); [|done]. rewrite IH. apply perm_swap.
Qed.

Lemma sort_desc_Z_perm {A} (key : A -> Z) (l : list A) : sort_desc_Z key l ≡ₚ l.
Proof.
  induction l as [|x t IH]; simpl; [done|]. rewrite insert_desc_Z_perm, IH. done.
Qed.

Lemma elem_of_keys_with p (C : cache) s :
  s ∈ keys_with p C <-> String.prefix p s = true /\ is_Some (C !! s).
Proof.
  unfold keys_with. rewrite list_elem_of_filter, list_elem_of_fmap.
  split.
  - intros [Hp ([s' v] & -> & Hv)]. apply elem_of_map_to_list in Hv. eauto.
  - intros [Hp [v Hv]]. split; [done|]. exists (s, v). split; [done|].
    apply elem_of_map_to_list. done.
Qed.

(** The number of keys [KEYS] lists under a prefix, when the keys under
    it are exactly those of the ids. *)
Lemma keys_with_count p (kf : nat -> string) `{!Inj (=) (=) kf} ids (C : cache) :
  (forall x, String.prefix p (kf x) = true) ->
  (forall s, String.prefix p s = true -> is_Some (C !! s) <-> exists x, x ∈ ids /\ s = kf x) ->
  length (keys_with p C) = length (remove_dups ids).
Proof.
  intros Hkf HC. rewrite <- (length_fmap kf). apply Permutation_length.
  apply NoDup_Permutation.
  - unfold keys_with. apply NoDup_filter, NoDup_fst_map_to_list.
  - apply NoDup_fmap_2; [done|]. apply NoDup_remove_dups.
  - intros s. rewrite elem_of_keys_with, list_elem_of_fmap.
    setoid_rewrite elem_of_remove_dups. split.
    + intros [Hp Hs]. apply HC in Hs as (x & Hx & ->); [|done]. eauto.
    + intros (x & -> & Hx). split; [done|]. apply HC; eauto.
Qed.

Lemma prefix_disjoint p1 p2 s1 s2 :
  String.prefix p1 s1 = true -> String.prefix p2 s2 = true ->
  String.prefix p1 p2 = false -> String.prefix p2 p1 = false -> s1 <> s2.
Proof.
  intros H1 H2 H12 H21 <-. revert p1 p2 H1 H2 H12 H21.
  induction s1 as [|d s IH]; intros p1 p2 H1 H2 H12 H21;
    destruct p1 as [|a p1]; destruct p2 as [|b p2]; simpl in *; try discriminate.
  destruct (Ascii.ascii_dec a d) as [<-|]; [|discriminate].
  destruct (Ascii.ascii_dec b a) as [<-|]; [|discriminate].
  destruct (Ascii.ascii_dec b b) as [_|]; [|done].
  exact (IH p1 p2 H1 H2 H12 H21).
Qed.

End SyncJobFacts.

Module SyncJobProps.
Import Similarity Sync SyncJobs SyncJobFacts SyncScenarios SyncJobScenarios.



Lemma filter_nonempty {A} (P : A -> Prop) `{forall x, Decision (P x)} (l : list A) x :
  x ∈ l -> P x -> filter P l <> [].
Proof.
  intros Hx Hp He. assert (Hf : x ∈ filter P l) by (apply list_elem_of_filter; done).
  rewrite He in Hf. inversion Hf.
Qed.




(** Whatever each batch does (runs, fails on its query, fails on
    [execute]), the item sync changes only the keys [item:similar:{x}] of
    items [x] present in the table: keys of items that left the table keep
    their old neighbours. *)
Theorem item_sync_frame o b k rows c c' st s :
  sync_item_similarity_o o b k rows c = Some (c', st) ->
  (forall x, x ∈ item_id <$> rows -> item_key x <> s) -> c' !! s = c !! s.
Proof.
  unfold sync_item_similarity_o, total_items. rewrite grouped_groups.
  apply run_sync_groups_frame.
Qed.


(** When the page query fails on every batch, Redis is left as it was and
    the statistics hold only the errors, one per batch. *)
Theorem item_sync_query_fails b k rows c :
  1 <= b ->
  sync_item_similarity_o (fun _ => QueryFails) b k rows c
  = Some (c, {| items_processed := 0; pairs_synced := 0;
                errors := (total_items rows + b - 1) / b |}).
Proof.
  intros Hb. unfold sync_item_similarity_o.
  rewrite <- (SyncFacts.length_grouped k rows), run_sync_query_fails by done.
  rewrite iter_errors. cbn. rewrite SyncFacts.length_grouped, Nat.add_0_r. done.
Qed.

(** Whatever each batch does, the user sync changes only the keys
    [user:similar:{u}] of users [u] present in [user_similarity]. *)
Theorem user_sync_frame o b k rows c c' st s :
  sync_user_similarity o b k rows c = Some (c', st) ->
  (forall x, x ∈ item_id <$> rows -> user_key x <> s) -> c' !! s = c !! s.
Proof.
  unfold sync_user_similarity, total_items. rewrite grouped_groups.
  apply run_sync_groups_frame.
Qed.

(** Whatever each batch does, the recent-items sync changes only the keys
    [user:recent_items:{u}] of users [u] with an interaction inside the
    look-back window: the seed items of users inactive for longer stay as
    they were. *)
Theorem recent_sync_frame o b lookback max now rows c c' st s :
  sync_user_recent_items o b lookback max now rows c = Some (c', st) ->
  (forall u, u ∈ r_user_id <$> window now lookback rows -> recent_key u <> s) ->
  c' !! s = c !! s.
Proof.
  unfold sync_user_recent_items. rewrite grouped_recent_groups.
  apply run_sync_groups_frame.
Qed.

Lemma window_user_nonempty now lookback rows u :
  u ∈ r_user_id <$> window now lookback rows ->
  sort_desc_Z r_interaction_time (filter (fun r => r_user_id r = u) (window now lookback rows)) <> [].
Proof.
  intros Hu He.
  pose proof (sort_desc_Z_perm r_interaction_time (filter (fun r => r_user_id r = u) (window now lookback rows))) as Hp.
  rewrite He in Hp. apply Permutation_nil in Hp.
  apply list_elem_of_fmap in Hu as (r & -> & Hr).
  eapply filter_nonempty; [exact Hr| |exact Hp]. done.
Qed.

Lemma item_nonempty rows x :
  x ∈ item_id <$> rows -> sort_desc similarity_score (filter (fun r => item_id r = x) rows) <> [].
Proof.
  intros Hx He.
  pose proof (sort_desc_perm similarity_score (filter (fun r => item_id r = x) rows)) as Hp.
  rewrite He in Hp. apply Permutation_nil in Hp.
  apply list_elem_of_fmap in Hx as (r & -> & Hr).
  eapply filter_nonempty; [exact Hr| |exact Hp]. done.
Qed.



Lemma item_key_prefix x : String.prefix ITEM_SIMILAR_KEY (item_key x) = true.
Proof. apply prefix_app. Qed.
Lemma user_key_prefix x : String.prefix USER_SIMILAR_KEY (user_key x) = true.
Proof. apply prefix_app. Qed.
Lemma recent_key_prefix x : String.prefix USER_RECENT_ITEMS_KEY (recent_key x) = true.
Proof. apply prefix_app. Qed.

(** [run_similarity_sync] against a Redis holding no key under the three
    prefixes, every batch succeeding: [get_sync_stats] then counts one key
    per item of [item_similarity], one per user of [user_similarity] and
    one per user active in the last 7 days. *)
Theorem similarity_sync_key_counts now item_tbl user_tbl recent_tbl c :
  (forall s, String.prefix ITEM_SIMILAR_KEY s = true \/ String.prefix USER_SIMILAR_KEY s = true
             \/ String.prefix USER_RECENT_ITEMS_KEY s = true -> c !! s = None) ->
  exists c' res,
    run_similarity_sync (fun _ => BatchOk) (fun _ => BatchOk) (fun _ => BatchOk) now
      item_tbl user_tbl recent_tbl c = Some (c', res) /\
    take 3 (get_sync_stats c')
    = [("item_similarity_keys", total_items item_tbl);
       ("user_similarity_keys", total_items user_tbl);
       ("user_recent_items_keys", length (remove_dups (r_user_id <$> window now 7 recent_tbl)))].
Proof.
  intros Hc. unfold run_similarity_sync, sync_item_similarity_o, sync_user_similarity,
    sync_user_recent_items, total_items.
  rewrite !grouped_groups, grouped_recent_groups.
  rewrite !run_sync_groups by (lia || apply item_key_inj' || apply user_key_inj || apply recent_key_inj).
  do 2 eexists. split; [reflexivity|].
  set (w := window now 7 recent_tbl).
  set (c1 := job_apply item_key _ c (kept_groups _ _ 50 _ (item_id <$> item_tbl))).
  set (c2 := job_apply user_key _ c1 (kept_groups _ _ 30 _ (item_id <$> user_tbl))).
  set (c3 := job_apply recent_key _ c2 (kept_groups _ _ 50 _ (r_user_id <$> w))).
  assert (Hd : forall p1 p2 s1 s2, String.prefix p1 s1 = true -> String.prefix p2 s2 = true ->
      p1 ∈ [ITEM_SIMILAR_KEY; USER_SIMILAR_KEY; USER_RECENT_ITEMS_KEY] ->
      p2 ∈ [ITEM_SIMILAR_KEY; USER_SIMILAR_KEY; USER_RECENT_ITEMS_KEY] -> p1 <> p2 -> s1 <> s2).
  { intros p1 p2 s1 s2 H1 H2 Hp1 Hp2 Hne. eapply prefix_disjoint; [exact H1|exact H2| |];
    repeat (apply elem_of_cons in Hp1 as [->|Hp1]); try (by apply elem_of_nil in Hp1);
    repeat (apply elem_of_cons in Hp2 as [->|Hp2]); try (by apply elem_of_nil in Hp2);
    done. }
  unfold get_sync_stats. simpl.
  rewrite (keys_with_count ITEM_SIMILAR_KEY item_key (item_id <$> item_tbl) c3),
    (keys_with_count USER_SIMILAR_KEY user_key (item_id <$> user_tbl) c3),
    (keys_with_count USER_RECENT_ITEMS_KEY recent_key (r_user_id <$> w) c3).
  - destruct (keys_with _ c3), (keys_with _ c3); reflexivity.
  - apply recent_key_prefix.
  - intros s Hs. subst c3. rewrite groups_apply_dom
      by (lia || apply _ || (intros u Hu; apply window_user_nonempty; done)).
    assert (Hc2 : c2 !! s = None).
    { subst c2 c1. rewrite groups_apply_other.
      - rewrite groups_apply_other.
        + apply Hc. tauto.
        + intros x _ Hx. subst s. eapply (Hd _ _ _ _ (item_key_prefix x) Hs); set_solver.
      - intros x _ Hx. subst s. eapply (Hd _ _ _ _ (user_key_prefix x) Hs); set_solver. }
    rewrite Hc2. split; [intros [H|[_ H]]; [done|by apply is_Some_None in H]|auto].
  - apply user_key_prefix.
  - intros s Hs. subst c3. rewrite groups_apply_other.
    2:{ intros u _ Hu. subst s. eapply (Hd _ _ _ _ (recent_key_prefix u) Hs); set_solver. }
    subst c2. rewrite groups_apply_dom by (lia || apply _ || (intros x Hx; apply item_nonempty; done)).
    assert (Hc1 : c1 !! s = None).
    { subst c1. rewrite groups_apply_other.
      - apply Hc. tauto.
      - intros x _ Hx. subst s. eapply (Hd _ _ _ _ (item_key_prefix x) Hs); set_solver. }
    rewrite Hc1. split; [intros [H|[_ H]]; [done|by apply is_Some_None in H]|auto].
  - apply item_key_prefix.
  - intros s Hs. subst c3. rewrite groups_apply_other.
    2:{ intros u _ Hu. subst s. eapply (Hd _ _ _ _ (recent_key_prefix u) Hs); set_solver. }
    subst c2. rewrite groups_apply_other.
    2:{ intros u _ Hu. subst s. eapply (Hd _ _ _ _ (user_key_prefix u) Hs); set_solver. }
    subst c1. rewrite groups_apply_dom by (lia || apply _ || (intros x Hx; apply item_nonempty; done)).
    rewrite Hc by tauto. split; [intros [H|[_ H]]; [done|by apply is_Some_None in H]|auto].
Qed.





(** The first batch fails on [execute], the second runs: the key of item
    7, absent from the rows, keeps its stale set. *)
Lemma item_sync_frame_witness :
  match sync_item_similarity_o (fun off => if bool_decide (off = 0) then ExecFails else BatchOk)
          1 2 four_rows stale_cache7 with
  | Some (c', st) => c' !! item_key 7 = stale_cache7 !! item_key 7
  | None => False
  end.
Proof.
  destruct (sync_item_similarity_o _ 1 2 four_rows stale_cache7) as [[c' st]|] eqn:E;
    [|vm_compute in E; discriminate E].
  apply (item_sync_frame _ 1 2 four_rows stale_cache7 c' st (item_key 7) E).
  intros x Hx Heq. apply (inj item_key) in Heq. subst x.
  apply (bool_decide_eq_true_2 (7 ∈ item_id <$> four_rows)) in Hx. vm_compute in Hx. discriminate Hx.
Defined.


Lemma item_sync_query_fails_witness :
  sync_item_similarity_o (fun _ => QueryFails) 1 2 four_rows stale_cache
  = Some (stale_cache, {| items_processed := 0; pairs_synced := 0; errors := 2 |}).
Proof. rewrite (item_sync_query_fails 1 2 four_rows stale_cache); [|lia]. vm_compute. reflexivity. Defined.

(** [four_rows] read as [user_similarity]: the item key of user 1 is not
    touched. *)
Lemma user_sync_frame_witness :
  match sync_user_similarity (fun _ => BatchOk) 100 30 four_rows stale_cache with
  | Some (c', st) => c' !! item_key 1 = stale_cache !! item_key 1
  | None => False
  end.
Proof.
  destruct (sync_user_similarity _ 100 30 four_rows stale_cache) as [[c' st]|] eqn:E;
    [|vm_compute in E; discriminate E].
  apply (user_sync_frame _ 100 30 four_rows stale_cache c' st (item_key 1) E).
  intros x _ Heq. unfold user_key, item_key in Heq. simpl in Heq. discriminate Heq.
Defined.

(** User 2's only interaction is older than the window: a stale key of
    user 2 is kept. *)
Lemma recent_sync_frame_witness :
  match sync_user_recent_items (fun _ => BatchOk) 1000 7 50 sample_now recent_sample
          {[recent_key 2 := {| zs := {[12 := 0%float]}; ttl := None |}]} with
  | Some (c', st) => c' !! recent_key 2 = Some {| zs := {[12 := 0%float]}; ttl := None |}
  | None => False
  end.
Proof.
  destruct (sync_user_recent_items _ 1000 7 50 sample_now recent_sample _) as [[c' st]|] eqn:E;
    [|vm_compute in E; discriminate E].
  rewrite (recent_sync_frame _ 1000 7 50 sample_now recent_sample _ c' st (recent_key 2) E).
  - apply lookup_singleton_eq.
  - intros u Hu Heq. apply (inj recent_key) in Heq. subst u.
    apply (bool_decide_eq_true_2 (2 ∈ r_user_id <$> window sample_now 7 recent_sample)) in Hu.
    vm_compute in Hu. discriminate Hu.
Defined.



Lemma similarity_sync_key_counts_witness :
  exists c' res,
    run_similarity_sync (fun _ => BatchOk) (fun _ => BatchOk) (fun _ => BatchOk) sample_now
      four_rows tie_rows recent_sample ∅ = Some (c', res) /\
    take 3 (get_sync_stats c')
    = [("item_similarity_keys", 2); ("user_similarity_keys", 1); ("user_recent_items_keys", 1)].
Proof.
  apply (similarity_sync_key_counts sample_now four_rows tie_rows recent_sample ∅).
  intros s _. apply lookup_empty.
Defined.
End SyncJobProps.


(* ------------------------------------------------------------------ *)
(** ** The jobs of [compute_similarity.py] *)

Lemma sublist_fmap_2 {A B} (f : A -> B) (l1 l2 : list A) :
  l1 `sublist_of` l2 -> f <$> l1 `sublist_of` f <$> l2.
Proof. induction 1; simpl; constructor; done. Qed.
Lemma NoDup_fmap_inj_on {A B} (f : A -> B) (l : list A) x y :
  NoDup (f <$> l) -> x ∈ l -> y ∈ l -> f x = f y -> x = y.
Proof.
  induction l as [|z l IH]; simpl; [intros _ Hx; inversion Hx|].
  rewrite NoDup_cons. intros [Hn Hd] Hx Hy Hf.
  apply elem_of_cons in Hx as [->|Hx]; apply elem_of_cons in Hy as [->|Hy]; auto.
  - destruct Hn. rewrite Hf. apply list_elem_of_fmap_2. done.
  - destruct Hn. rewrite <- Hf. apply list_elem_of_fmap_2. done.
Qed.

Lemma NoDup_fmap_filter {A B} (f : A -> B) (P : A -> Prop) `{forall x, Decision (P x)} l :
  NoDup (f <$> l) -> NoDup (f <$> filter P l).
Proof. intros Hl. eapply sublist_NoDup; [exact Hl|]. apply sublist_fmap_2, sublist_filter. Qed.

Lemma fmap_bind_l {A B C} (f : B -> C) (g : A -> list B) (l : list A) :
  f <$> (l ≫= g) = l ≫= (fun x => f <$> g x).
Proof. induction l as [|x l IH]; [done|]. rewrite !bind_cons, fmap_app, IH. done. Qed.

Module ComputeFacts.
Import Similarity SimilarityFacts.

Section Generic.
Variables (key member : watch_event -> nat).

Lemma groups_ids_NoDup today lb m events :
  NoDup (g_id <$> groups key member today lb m events).
Proof.
  unfold groups. apply NoDup_fmap_filter. rewrite <- list_fmap_compose.
  unfold compose. simpl. rewrite list_fmap_id. apply NoDup_remove_dups.
Qed.

Lemma pairs_NoDup mc gs :
  NoDup (g_id <$> gs) -> NoDup ((fun p => (ip_a p, ip_b p)) <$> pairs mc gs).
Proof.
  intros Hg. unfold pairs. apply NoDup_fmap_filter.
  rewrite fmap_bind_l. apply NoDup_bind.
  - intros a a' z Ha Ha' Hz Hz'.
    rewrite fmap_bind_l, list_elem_of_bind in Hz, Hz'.
    destruct Hz as [b [Hz _]]; destruct Hz' as [b' [Hz' _]].
    apply list_elem_of_singleton in Hz, Hz'. simpl in *. subst z.
    apply (NoDup_fmap_inj_on g_id gs); auto. congruence.
  - intros a Ha. rewrite fmap_bind_l.
    assert (E : (a0 ← filter (fun b => g_id a < g_id b) gs;
                 (fun p => (ip_a p, ip_b p)) <$> [pair_of a a0])
                = (fun b => (g_id a, g_id b)) <$> filter (fun b => g_id a < g_id b) gs).
    { induction (filter _ gs) as [|b l IH]; [done|]. rewrite !bind_cons, IH. done. }
    rewrite E. apply NoDup_fmap_2_strong.
    + intros b b' Hb Hb' Hbb. apply list_elem_of_filter in Hb as [_ Hb], Hb' as [_ Hb'].
      apply (NoDup_fmap_inj_on g_id gs); auto. congruence.
    + apply NoDup_filter. eapply NoDup_fmap_1. exact Hg.
  - eapply NoDup_fmap_1. exact Hg.
Qed.

Lemma scored_pairs_NoDup mj ps :
  NoDup ((fun p => (ip_a p, ip_b p)) <$> ps) ->
  NoDup ((fun sp => (sp_a sp, sp_b sp)) <$> scored_pairs mj ps).
Proof.
  intros Hp. unfold scored_pairs. apply NoDup_fmap_filter.
  rewrite <- list_fmap_compose. exact Hp.
Qed.

Lemma rank_limit_NoDup part k sps :
  NoDup ((fun sp => (sp_a sp, sp_b sp)) <$> sps) ->
  NoDup ((fun sp => (sp_a sp, sp_b sp)) <$> rank_limit part k sps).
Proof.
  intros Hs. unfold rank_limit. rewrite fmap_bind_l. apply NoDup_bind.
  - intros x x' z _ _ Hz Hz'.
    apply list_elem_of_fmap in Hz as [s [-> Hs1]], Hz' as [s' [Hss Hs2]].
    apply subseteq_take in Hs1, Hs2. rewrite sort_desc_perm, list_elem_of_filter in Hs1, Hs2.
    destruct Hs1 as [<- Hs1], Hs2 as [<- Hs2].
    rewrite (NoDup_fmap_inj_on (fun sp => (sp_a sp, sp_b sp)) sps s s'); auto.
  - intros x _. eapply sublist_NoDup; [|apply sublist_fmap_2, sublist_take].
    rewrite sort_desc_perm. apply NoDup_fmap_filter. exact Hs.
  - apply NoDup_remove_dups.
Qed.

Lemma scored_pairs_elem mj mc gs sp :
  sp ∈ scored_pairs mj (pairs mc gs) ->
  sp_a sp < sp_b sp /\ mc <= sp_intersection sp /\ PrimFloat.leb mj (sp_jaccard sp) = true.
Proof.
  unfold scored_pairs. rewrite list_elem_of_filter, list_elem_of_fmap.
  intros [Hj [ip [-> Hip]]]. unfold pairs in Hip.
  rewrite list_elem_of_filter, list_elem_of_bind in Hip.
  destruct Hip as [Hc [a [Hip _]]]. rewrite list_elem_of_bind in Hip.
  destruct Hip as [b [Hip Hb]]. apply list_elem_of_singleton in Hip as ->.
  apply list_elem_of_filter in Hb. simpl. tauto.
Qed.

Lemma compute_rows_shape p today now events r :
  r ∈ compute_rows key member p today now events ->
  item_id r <> similar_item_id r /\ computed_at r = now /\ version r = now /\
  min_common p <= co_interaction_count r /\
  PrimFloat.leb (min_jaccard p) (jaccard_score r) = true.
Proof.
  unfold compute_rows. rewrite elem_of_app, !list_elem_of_fmap.
  intros [[sp [-> Hsp]] | [sp [-> Hsp]]]; apply rank_limit_elem, scored_pairs_elem in Hsp;
    simpl; repeat split; try tauto; lia.
Qed.
Lemma compute_rows_NoDup p today now events :
  NoDup ((fun r => (item_id r, similar_item_id r)) <$> compute_rows key member p today now events).
Proof.
  unfold compute_rows.
  set (sps := scored_pairs _ _).
  assert (Hs : NoDup ((fun sp => (sp_a sp, sp_b sp)) <$> sps)).
  { apply scored_pairs_NoDup, pairs_NoDup, groups_ids_NoDup. }
  assert (Hlt : forall sp, sp ∈ sps -> sp_a sp < sp_b sp).
  { intros sp Hsp. apply scored_pairs_elem in Hsp. tauto. }
  rewrite fmap_app, <- !list_fmap_compose. apply NoDup_app. split_and!.
  - unfold compose. simpl. apply rank_limit_NoDup, Hs.
  - intros z Hz Hz'. apply list_elem_of_fmap in Hz as [s [-> Hs1]], Hz' as [s' [Hss Hs2]].
    apply rank_limit_elem, Hlt in Hs1, Hs2. unfold compose in Hss. simpl in Hss.
    injection Hss. lia.
  - apply NoDup_fmap_2_strong.
    + intros s s' Hs1 Hs2 Hss.
      apply (NoDup_fmap_inj_on (fun sp => (sp_a sp, sp_b sp)) (rank_limit sp_b (top_k p) sps));
        auto; [apply rank_limit_NoDup, Hs|]. unfold compose in Hss. simpl in Hss.
      injection Hss. intros -> ->. done.
    + eapply NoDup_fmap_1, rank_limit_NoDup, Hs.
Qed.

End Generic.


End ComputeFacts.

Module ComputeProps.
Import Similarity Pipeline Scenarios ComputeFacts.

(** Every row of a new generation of [item_similarity] or
    [user_similarity] pairs two different ids, is stamped [now] in both
    [computed_at] and [version], has at least [min_common] shared members,
    and a Jaccard score of at least [min_jaccard]. *)
Theorem new_generation_shape p today now events r :
  r ∈ item_rows p today now events \/ r ∈ user_rows p today now events ->
  item_id r <> similar_item_id r /\ computed_at r = now /\ version r = now /\
  min_common p <= co_interaction_count r /\
  PrimFloat.leb (min_jaccard p) (jaccard_score r) = true.
Proof. intros [Hr|Hr]; eapply compute_rows_shape, Hr. Qed.

Lemma new_generation_shape_witness :
  let r := hd prior_row (item_rows scenario_params 100 8640000 scenario_events) in
  (r ∈ item_rows scenario_params 100 8640000 scenario_events \/
   r ∈ user_rows scenario_params 100 8640000 scenario_events) /\
  item_id r <> similar_item_id r /\ computed_at r = 8640000%Z /\ version r = 8640000%Z /\
  min_common scenario_params <= co_interaction_count r /\
  PrimFloat.leb (min_jaccard scenario_params) (jaccard_score r) = true.
Proof.
  intros r.
  assert (H : r ∈ item_rows scenario_params 100 8640000 scenario_events \/
              r ∈ user_rows scenario_params 100 8640000 scenario_events).
  { left. apply (list_elem_of_lookup_2 _ 0). vm_compute. reflexivity. }
  split; [exact H|]. apply (new_generation_shape scenario_params 100 8640000 scenario_events r H).
Defined.

(** One generation never inserts the same ([item_id], [similar_item_id])
    pair twice: the two ranked directions cannot overlap, and each
    direction holds a pair at most once. *)
Theorem new_generation_no_duplicate_pair p today now events :
  NoDup ((fun r => (item_id r, similar_item_id r)) <$> item_rows p today now events) /\
  NoDup ((fun r => (item_id r, similar_item_id r)) <$> user_rows p today now events).
Proof. split; apply compute_rows_NoDup. Qed.






End ComputeProps.

(* ------------------------------------------------------------------ *)
(** ** [build_training_dataset] and [compute_derived_features] *)

Module TrainingJoinFacts.
Import Training TrainingFacts.




Lemma cut_from_bound i edges x j :
  cut_from i edges x = Some j -> i <= j /\ j + 2 <= i + length edges.
Proof.
  revert i. induction edges as [|lo rest IH]; intros i; [discriminate|].
  destruct rest as [|hi rest']; [discriminate|].
  simpl. destruct (_ && _); [intros [= <-]; simpl; lia|].
  intros H. apply IH in H. simpl in H. lia.
Qed.

Lemma bucket_column_bound edges xs bs :
  bucket_column edges xs = Ok bs ->
  Forall (fun b => 0 <= b /\ b + 2 <= Z.of_nat (length edges))%Z bs.
Proof.
  unfold bucket_column. destruct (mapM (cut edges) xs) as [l|] eqn:E; [|discriminate].
  intros [= <-]. apply mapM_Some_1 in E. apply Forall_fmap.
  induction E as [|x j xs' l' Hj _ IH]; constructor; [|exact IH].
  apply cut_from_bound in Hj. simpl. lia.
Qed.

Lemma Forall2_zip_with_zip {A B C D} (P : A -> D -> Prop) (f : A -> B * C -> D)
    (Q : B -> Prop) (R : C -> Prop) (l : list A) xs ys :
  length xs = length l -> length ys = length l -> Forall Q xs -> Forall R ys ->
  (forall a b c, Q b -> R c -> P a (f a (b, c))) ->
  Forall2 P l (zip_with f l (zip xs ys)).
Proof.
  intros Hx Hy HQ HR Hf. revert xs ys Hx Hy HQ HR.
  induction l as [|a l IH]; intros [|b xs] [|c ys] Hx Hy HQ HR; simpl in *; try lia;
    [constructor|].
  apply Forall_cons in HQ as [HQ1 HQ], HR as [HR1 HR].
  constructor; [apply Hf; done|]. apply IH; auto.
Qed.

Lemma zb_01 b : (zb b = 0 \/ zb b = 1)%Z.
Proof. destruct b; simpl; auto. Qed.

End TrainingJoinFacts.

Module TrainingProps.
Import Training TrainingFacts TrainingScenarios TrainingJoinFacts.



(** With a feature snapshot for the positive (user 1, post 10), the merge
    renames [recall_source] and the build raises [KeyError]. *)
Lemma build_with_features_raises :
  (build_training_dataset id_perm
     {| tbl := tbl one_positive_env; features := [(1, 10)]; features_fail := false;
        rand_keys := rand_keys one_positive_env |} 10 10 0.6).1.1
  = Raise (KeyError "recall_source").
Proof. vm_compute. reflexivity. Qed.

(** When [compute_derived_features] succeeds on a non-empty frame, it
    appends the seven derived columns and, to each row (kept in order),
    values for them: 0/1 flags with at most one of morning, evening and
    night set, position and completion buckets in 0..4, and a recall
    source code in 0..5. *)
Theorem derived_features_values df df' :
  compute_derived_features df = Ok df' -> rows df <> [] ->
  cols df' = cols df ++ derived_cols /\
  Forall2 (fun r r' => base r' = base r /\
    exists w m ev n pb cb rc,
      extra r' = extra r ++ [("is_weekend", w); ("is_morning", m); ("is_evening", ev);
                             ("is_night", n); ("position_bucket", pb);
                             ("completion_bucket", cb); ("recall_source_encoded", rc)] /\
      Forall (fun v => v = 0 \/ v = 1)%Z [w; m; ev; n] /\ (m + ev + n <= 1)%Z /\
      (0 <= pb <= 4)%Z /\ (0 <= cb <= 4)%Z /\ (0 <= rc <= 5)%Z) (rows df) (rows df').
Proof.
  intros Hd Hr. unfold compute_derived_features in Hd.
  rewrite (bool_decide_eq_false_2 _ Hr) in Hd. unfold exc_bind in Hd.
  destruct (col df "day_of_week"); [|discriminate].
  destruct (col df "hour_of_day"); [|discriminate].
  destruct (col df "position_in_feed"); [|discriminate].
  destruct (bucket_column position_bins _) as [pos|] eqn:Ep; [|discriminate].
  destruct (col df "completion_rate"); [|discriminate].
  destruct (bucket_column completion_bins _) as [comp|] eqn:Ec; [|discriminate].
  destruct (col df "recall_source"); [|discriminate].
  injection Hd as <-. split; [reflexivity|]. simpl.
  pose proof (bucket_column_length _ _ _ Ep) as Lp.
  pose proof (bucket_column_length _ _ _ Ec) as Lc.
  rewrite !length_fmap in Lp, Lc.
  apply bucket_column_bound in Ep, Ec. simpl in Ep, Ec.
  eapply Forall2_zip_with_zip; [exact Lp|exact Lc|exact Ep|exact Ec|].
  intros r pb cb Hpb Hcb. cbn in Hpb, Hcb. simpl. split; [done|].
  eexists _, _, _, _, pb, cb, _. split; [reflexivity|].
  split; [repeat (constructor; [apply zb_01|]); constructor|].
  split; [|split; [lia|split; [lia|]]].
  - unfold zb. repeat case_bool_decide; lia.
  - unfold recall_source_code. repeat destruct (String.eqb _ _); lia.
Qed.

Lemma derived_features_values_witness :
  exists df',
    compute_derived_features (frame_of [mk_sample 1 10 1 2 0.8]) = Ok df' /\
    rows (frame_of [mk_sample 1 10 1 2 0.8]) <> [] /\
    cols df' = sample_cols ++ derived_cols.
Proof.
  destruct (compute_derived_features (frame_of [mk_sample 1 10 1 2 0.8])) as [df'|ex] eqn:E.
  - exists df'. split; [reflexivity|]. split; [discriminate|].
    apply (derived_features_values _ _ E). discriminate.
  - vm_compute in E. discriminate E.
Defined.
End TrainingProps.

(* ------------------------------------------------------------------ *)
(** ** The stage selection of [run_pipeline.main] *)

Module PipelineFacts.
Import Pipeline.

Lemma run_stages_all_ok {world} (rs : stage -> world -> Exc (string * world)) ss w d :
  (forall s w0, s ∈ ss -> exists v w1, rs s w0 = Ok (v, w1)) ->
  exists w', run_stages rs ss w d = (d ++ ss, Ok w').
Proof.
  revert w d. induction ss as [|s t IH]; intros w d Hok; simpl.
  - exists w. rewrite app_nil_r. done.
  - destruct (Hok s w) as [v [w1 E]]; [left|]. rewrite E.
    destruct (IH w1 (d ++ [s])) as [w' Ew]; [intros s' w0 Hs; apply Hok; right; done|].
    exists w'. rewrite Ew, <- app_assoc. done.
Qed.

End PipelineFacts.

Module PipelineProps.
Import Pipeline PipelineFacts.

(** The stages [main] runs are in the order of [all_stages], each at most
    once, never none; with [--all] or with no stage flag, all four. *)
Theorem selected_stages fl :
  selected fl `sublist_of` all_stages /\ selected fl <> [] /\
  (f_all fl = true \/ (f_similarity fl || f_sync fl || f_extract fl || f_train fl) = false ->
   selected fl = all_stages).
Proof.
  destruct fl as [[] [] [] [] []]; unfold selected, all_stages; simpl;
    (split; [repeat constructor|split; [discriminate|intros [H|H]; try discriminate H; reflexivity]]).
Qed.

(** When no selected stage raises, [main] runs each selected stage once,
    in order, logs ["Pipeline complete!"] and exits with status 0. *)
Theorem main_all_stages_ok {world} (rs : stage -> world -> Exc (string * world)) fl w :
  (forall s w0, s ∈ selected fl -> exists v w1, rs s w0 = Ok (v, w1)) ->
  exists w', main rs fl w = (0%Z, selected fl, [LogInfo "Pipeline complete!"], Some w').
Proof.
  intros Hok. destruct (run_stages_all_ok rs (selected fl) w [] Hok) as [w' E].
  exists w'. unfold main. rewrite E. done.
Qed.

Lemma main_all_stages_ok_witness :
  let fl := {| f_all := false; f_similarity := false; f_sync := true;
               f_extract := true; f_train := false |} in
  let rs (s : stage) (w : nat) : Exc (string * nat) := Ok ("done", S w) in
  (forall s w0, s ∈ selected fl -> exists v w1, rs s w0 = Ok (v, w1)) /\
  exists w', main rs fl 0 = (0%Z, [SSync; SExtract], [LogInfo "Pipeline complete!"], Some w').
Proof.
  intros fl rs.
  assert (H : forall s w0, s ∈ selected fl -> exists v w1, rs s w0 = Ok (v, w1)).
  { intros s w0 _. eexists _, _. reflexivity. }
  split; [exact H|]. apply (main_all_stages_ok rs fl 0 H).
Defined.

End PipelineProps.
